(** * containerlab: deployment orchestrator and the cEOS node kind

    A shallow embedding of [cmd/deploy.go] (worker limits, node enrichment,
    hosts-file generation, the post-deploy fan-out) and of the cEOS node
    kind ([Init], [createCEOSFiles], [ceosPostDeploy]).

    Conventions.
    - Go [string] and [[]byte] are Rocq [string]s (sequences of bytes).
    - Go [error] is [option string]: [None] is [nil], [Some msg] an error
      whose [Error()] text is [msg].
    - Go [map[string]T] is [gmap string T]; the order in which a [range]
      loop visits a map is not fixed by the language, so a loop over a map
      takes the visiting order as an argument.
    - Calls that leave the program (container runtime, file system, logger,
      helpers of other packages) are the constructors of [Call]; code that
      performs them is a tree of calls ([prog]), run against a world that
      answers every call. *)

From Stdlib Require Import ZArith NArith Lia List Ascii String.
From stdpp Require Import base option list gmap strings fin_maps sorting.

Local Open Scope string_scope.
Local Open Scope list_scope.

(** ** Go's [strings] helpers *)

Module GoStrings.

Definition TAB : string := String "009"%char "".
Definition LF : string := String "010"%char "".

(** [len(s)] *)
Definition len (s : string) : nat := String.length s.

Fixpoint mem_byte (c : ascii) (cutset : string) : bool :=
  match cutset with
  | EmptyString => false
  | String d rest => if Ascii.eqb c d then true else mem_byte c rest
  end.

(** [strings.TrimLeft(s, cutset)]: drop the longest prefix made of bytes
    of [cutset].  (Go works on code points; for an ASCII [cutset] that is
    the same as working on bytes.) *)
Fixpoint TrimLeft (s cutset : string) : string :=
  match s with
  | EmptyString => EmptyString
  | String c rest => if mem_byte c cutset then TrimLeft rest cutset else s
  end.

(** ASCII lower-casing of one byte: 'A'..'Z' (65..90) gain 32. *)
Definition lower_byte (c : ascii) : ascii :=
  let n := nat_of_ascii c in
  if (65 <=? n)%nat && (n <=? 90)%nat then ascii_of_nat (n + 32) else c.

(** [strings.ToLower(s)] on its ASCII part.  The code only compares the
    result with the ASCII literal "host", and no code point outside ASCII
    lower-cases to one of 'h', 'o', 's', 't'. *)
Fixpoint ToLower (s : string) : string :=
  match s with
  | EmptyString => EmptyString
  | String c rest => String (lower_byte c) (ToLower rest)
  end.

(** Concatenation of a list of strings, as repeated [WriteString]. *)
Definition concat_all (l : list string) : string :=
  fold_right String.append "" l.

End GoStrings.
Import GoStrings.

(** ** Data model (package [types]) *)

Definition error := option string.

(** [types.GenericMgmtIPs]: the network settings of a listed container. *)
Record GenericMgmtIPs := {
  Set_ : bool;          (* field [Set] *)
  IPv4addr : string;
  IPv4pLen : Z;
  IPv6addr : string;
  IPv6pLen : Z
}.

(** [types.GenericContainer], the fields the code reads. *)
Record GenericContainer := {
  Names : list string;
  ID : string;
  Labels : gmap string string;
  NetworkSettings : GenericMgmtIPs
}.

(** [types.NodeBase] as [cmd/deploy.go] uses it. *)
Record NodeBase := {
  nb_ShortName : string;
  nb_NetworkMode : string;
  nb_MgmtIPv4Address : string;
  nb_MgmtIPv4PrefixLength : Z;
  nb_MgmtIPv6Address : string;
  nb_MgmtIPv6PrefixLength : Z;
  nb_ContainerID : string
}.

(** [types.NodeConfig] as the cEOS kind uses it. *)
Record NodeConfig := {
  ShortName : string;
  LongName : string;
  LabDir : string;
  Env : gmap string string;
  Cmd : string;
  MacAddress : string;
  Binds : list string;
  ResConfig : string;
  ContainerID : string;
  NSPath : string
}.

(** Go's zero value for a missing map key: [m[k]] is "" when [k] is absent. *)
Definition map_index (m : gmap string string) (k : string) : string :=
  default "" (m !! k).

(** ** Worker limits ([deployCmd.RunE], the block that precedes node creation) *)

Module Workers.

(** [maxWorkers], [numNodes] and [numLinks] are Go [uint]s; the block only
    compares and assigns them, so no arithmetic can wrap.  [if a > b] is
    written [if b <? a]. *)
(** The pair [(nodesMaxWorkers, linksMaxWorkers)] handed to [CreateNodes]
    and [CreateLinks]. *)
Definition workerLimits (maxWorkers numNodes numLinks : N) : N * N :=
  let nodesMaxWorkers := maxWorkers in
  let linksMaxWorkers := maxWorkers in
  let '(nodesMaxWorkers, linksMaxWorkers) :=
    if (maxWorkers =? 0)%N then (numNodes, numLinks)
    else (nodesMaxWorkers, linksMaxWorkers) in
  let nodesMaxWorkers :=
    if (numNodes <? nodesMaxWorkers)%N then numNodes else nodesMaxWorkers in
  let linksMaxWorkers :=
    if (numLinks <? linksMaxWorkers)%N then numLinks else linksMaxWorkers in
  (nodesMaxWorkers, linksMaxWorkers).

End Workers.

(** ** Hosts entries ([hostsEntries]) *)

Module Hosts.

(** One [address<TAB>name<LF>] line; the name is the container's first
    name with leading slashes trimmed. *)
Definition entry (addr name0 : string) : string :=
  addr +:+ TAB +:+ TrimLeft name0 "/" +:+ LF.

(** What one iteration of the loop appends to the buffer. *)
Definition entriesOf (cont : GenericContainer) : string :=
  match Names cont with
  | [] => ""                                   (* [continue] *)
  | name0 :: _ =>
      if Set_ (NetworkSettings cont) then
        (if String.eqb (IPv4addr (NetworkSettings cont)) "" then ""
         else entry (IPv4addr (NetworkSettings cont)) name0)
        +:+
        (if String.eqb (IPv6addr (NetworkSettings cont)) "" then ""
         else entry (IPv6addr (NetworkSettings cont)) name0)
      else ""
  end.

(** [hostsEntries(containers, bridgeName)]; [bridgeName] is not read. *)
Fixpoint hostsEntries (containers : list GenericContainer)
    (bridgeName : string) : string :=
  match containers with
  | [] => ""
  | cont :: rest => entriesOf cont +:+ hostsEntries rest bridgeName
  end.

(** The lines of a text blob: maximal runs of bytes closed by a line
    feed (a trailing run without a line feed is not a line). *)
Fixpoint lines_from (acc s : string) : list string :=
  match s with
  | EmptyString => []
  | String c rest =>
      if Ascii.eqb c "010"%char then acc :: lines_from "" rest
      else lines_from (acc +:+ String c "") rest
  end.
Definition lines (s : string) : list string := lines_from "" s.

(** Does a line end in [<TAB>name]? *)
Definition names_host (name line : string) : bool :=
  let suffix := TAB +:+ name in
  let n := String.length line in
  let k := String.length suffix in
  (k <=? n)%nat && String.eqb (String.substring (n - k) k line) suffix.

Definition lines_for (name blob : string) : list string :=
  List.filter (names_host name) (lines blob).

(** A container whose network settings are populated. *)
Definition eligible (cont : GenericContainer) : Prop :=
  Set_ (NetworkSettings cont) = true.

End Hosts.

(** ** Calls that leave the program, and programs as trees of calls *)

Module Effects.

Inductive LogLevel := LDebug | LInfo | LError.

(** [os.O_APPEND], [os.O_WRONLY] *)
Inductive OpenFlag := O_APPEND | O_WRONLY.
(** [os.ModeAppend] *)
Inductive FileMode := ModeAppend.

Inductive Call :=
(* logrus *)
| Log (lvl : LogLevel) (msg : string)
(* types.NodeConfig.GenerateConfig(dst, templ), on the given node *)
| GenerateConfig (node : NodeConfig) (dst templ : string)
(* runtime.ContainerRuntime *)
| StopContainer (id : string) (timeout : Z)
| StartContainer (id : string)
| GetNSPath (id : string)
(* utils *)
| DeleteNetnsSymlink (name : string)
| LinkContainerNS (nspath name : string)
| CreateDirectory (path : string) (perm : Z)
| CreateFile (path content : string)
(* os: OpenFile, and WriteString, Write, Close on the opened file *)
| OpenFile (path : string) (flag : list OpenFlag) (perm : FileMode)
| FileWriteString (path s : string)
| FileWrite (path data : string)
| FileClose (path : string)
(* clab.CLab.CreateLinks(ctx, workers, postdeploy) *)
| CreateLinks (workers : N) (postdeploy : bool)
(* newVerNotification, printContainerInspect *)
| NewVerNotification
| PrintContainerInspect (containers : list GenericContainer)
    (bridgeName : string).

(** What a call answers: a string result (the namespace path of
    [GetNSPath]; unused by the other calls) and an error. *)
Record Resp := { r_val : string; r_err : error }.

Definition ok : Resp := {| r_val := ""; r_err := None |}.
Definition ok_val (v : string) : Resp := {| r_val := v; r_err := None |}.
Definition failed (e : string) : Resp := {| r_val := ""; r_err := Some e |}.

Inductive prog (A : Type) : Type :=
| Ret (a : A)
| Do (c : Call) (k : Resp → prog A).
Arguments Ret {A} a.
Arguments Do {A} c k.

Fixpoint bind {A B} (m : prog A) (f : A → prog B) : prog B :=
  match m with
  | Ret a => f a
  | Do c k => Do c (λ r, bind (k r) f)
  end.

#[export] Instance prog_ret : MRet prog := λ A a, Ret a.
#[export] Instance prog_bind : MBind prog := λ A B f m, bind m f.

Definition call (c : Call) : prog Resp := Do c Ret.

(** A trace: the calls made, each with its answer, oldest first. *)
Definition trace := list (Call * Resp).

(** A world answers a call knowing everything that happened before it. *)
Definition World := trace → Call → Resp.

(** Run [p] to its end in the world [env], after history [tr]. *)
Fixpoint interp {A} (env : World) (p : prog A) (tr : trace) : A * trace :=
  match p with
  | Ret a => (a, tr)
  | Do c k => let r := env tr c in interp env (k r) (tr ++ [(c, r)])
  end.

(** [runs p t p']: [p] can make the calls of [t], receiving the answers
    of [t], and is then left with [p'] to do.  The answers are not
    constrained: every behaviour of the outside world is covered. *)
Inductive runs {A} : prog A → trace → prog A → Prop :=
| runs_nil p : runs p [] p
| runs_cons c k r t p' :
    runs (k r) t p' → runs (Do c k) ((c, r) :: t) p'.

(** [p] finishes with result [a] after the trace [t]. *)
Definition returns {A} (p : prog A) (t : trace) (a : A) : Prop :=
  runs p t (Ret a).

Definition calls (t : trace) : list Call := t.*1.

(** Every run of [p] that reaches a result reaches one satisfying [P]. *)
Definition always {A} (P : A → Prop) (p : prog A) : Prop :=
  ∀ t a, returns p t a → P a.

(** [q'] is [q] after its next call; [l'] is the list of programs [l]
    after one of them made its next call. *)
Definition thread_next {A} (q' q : prog A) : Prop :=
  ∃ c k r, q = Do c k ∧ q' = k r.
Definition threads_next {A} (l' l : list (prog A)) : Prop :=
  ∃ i q q', l !! i = Some q ∧ thread_next q' q ∧ l' = <[i := q']> l.

Definition is_log (c : Call) : bool :=
  match c with Log _ _ => true | _ => false end.
Definition is_stop (id : string) (c : Call) : bool :=
  match c with StopContainer id' _ => String.eqb id id' | _ => false end.
Definition is_start (id : string) (c : Call) : bool :=
  match c with StartContainer id' => String.eqb id id' | _ => false end.

(** A Go function either returns or panics. *)
Inductive outcome (A : Type) : Type :=
| Returned (a : A)
| Panicked (msg : string).
Arguments Returned {A} a.
Arguments Panicked {A} msg.

End Effects.
Import Effects.

(** ** Writing the hosts file ([createHostsFile]) *)

Module HostsFile.
Import Hosts.

Definition etc_hosts : string := "/etc/hosts".

(** [defer f.Close()] runs on every return that follows a successful
    [os.OpenFile]. *)
Definition createHostsFile (containers : list GenericContainer)
    (bridgeName : string) : prog error :=
  if String.eqb bridgeName "" then
    mret (Some "missing bridge name")
  else
    let data := hostsEntries containers bridgeName in
    if (len data =? 0)%nat then
      mret None
    else
      f ← call (OpenFile etc_hosts [O_APPEND; O_WRONLY] ModeAppend);
      match r_err f with
      | Some err => mret (Some err)
      | None =>
          w1 ← call (FileWriteString etc_hosts LF);
          match r_err w1 with
          | Some err => _ ← call (FileClose etc_hosts); mret (Some err)
          | None =>
              w2 ← call (FileWrite etc_hosts data);
              match r_err w2 with
              | Some err => _ ← call (FileClose etc_hosts); mret (Some err)
              | None => _ ← call (FileClose etc_hosts); mret None
              end
          end
      end.

End HostsFile.

(** ** Enrichment ([enrichNodes]) *)

Module Enrich.

(** The node map [map[string]*types.NodeBase] is keyed by node name; the
    topology holds one node object per name, so writing through
    [nodes[name]] is an update of the entry at [name]. *)
Definition with_mgmt (node : NodeBase) (ns : GenericMgmtIPs) : NodeBase :=
  {| nb_ShortName := nb_ShortName node;
     nb_NetworkMode := nb_NetworkMode node;
     nb_MgmtIPv4Address := IPv4addr ns;
     nb_MgmtIPv4PrefixLength := IPv4pLen ns;
     nb_MgmtIPv6Address := IPv6addr ns;
     nb_MgmtIPv6PrefixLength := IPv6pLen ns;
     nb_ContainerID := nb_ContainerID node |}.

Definition with_id (node : NodeBase) (id : string) : NodeBase :=
  {| nb_ShortName := nb_ShortName node;
     nb_NetworkMode := nb_NetworkMode node;
     nb_MgmtIPv4Address := nb_MgmtIPv4Address node;
     nb_MgmtIPv4PrefixLength := nb_MgmtIPv4PrefixLength node;
     nb_MgmtIPv6Address := nb_MgmtIPv6Address node;
     nb_MgmtIPv6PrefixLength := nb_MgmtIPv6PrefixLength node;
     nb_ContainerID := id |}.

(** [strings.ToLower(node.NetworkMode) == "host"] *)
Definition isHost (node : NodeBase) : bool :=
  String.eqb (ToLower (nb_NetworkMode node)) "host".

(** The writes of the loop body to a matched node that is not on host
    networking. *)
Definition writeNode (c : GenericContainer) (node : NodeBase) : NodeBase :=
  let node :=
    if Set_ (NetworkSettings c) then with_mgmt node (NetworkSettings c)
    else node in
  with_id node (ID c).

(** The state the function works on: the package-level variable [name],
    which the loop assigns, and the node map. *)
Record state := {
  name : string;
  nodes : gmap string NodeBase
}.

Definition node_label : string := "clab-node-name".

(** One iteration of the loop. *)
Definition enrichStep (st : state) (c : GenericContainer) : state :=
  let name := map_index (Labels c) node_label in
  match nodes st !! name with
  | Some node =>
      if isHost node then
        {| name := name; nodes := nodes st |}           (* [continue] *)
      else
        {| name := name; nodes := <[name := writeNode c node]> (nodes st) |}
  | None => {| name := name; nodes := nodes st |}
  end.

(** [enrichNodes(containers, nodes, mgmtNet)]; [mgmtNet] is not read. *)
Definition enrichNodes (containers : list GenericContainer)
    (st : state) (mgmtNet : string) : state :=
  foldl enrichStep st containers.

(** The same loop seen from one key of the map: what an iteration, and
    what the whole loop, does to the node stored at [k]. *)
Definition label (c : GenericContainer) : string :=
  map_index (Labels c) node_label.

Definition upd (k : string) (c : GenericContainer) (n : NodeBase) : NodeBase :=
  if decide (label c = k) then
    if isHost n then n else writeNode c n
  else n.

Definition upds (k : string) (cs : list GenericContainer) (n : NodeBase)
    : NodeBase :=
  foldl (λ n c, upd k c n) n cs.

End Enrich.

(** ** Post-deploy fan-out and the rest of [deployCmd.RunE] *)

Module Fanout.
Import HostsFile.

Section WithTasks.
(** [clab.CLab.ExecPostDeployTasks(ctx, node, lworkers)] lives in
    another package; it is taken as it comes: any program that ends
    with the node as it left it and an error. *)
Variable ExecPostDeployTasks : NodeBase → N → prog (NodeBase * error).

(** The body of the goroutine started for [node]. *)
Definition goroutine (linksMaxWorkers : N) (node : NodeBase)
    : prog NodeBase :=
  '(node, err) ← ExecPostDeployTasks node linksMaxWorkers;
  match err with
  | Some e =>
      _ ← call (Log LError
             ("failed to run postdeploy task for node "
                +:+ nb_ShortName node +:+ ": " +:+ e));
      mret node
  | None => mret node
  end.

(** The goroutines between [wg.Add] and [wg.Wait]: what each has left
    to do, and the calls made so far, each tagged with the index of the
    goroutine that made it.  A goroutine is observed at its calls; they
    interleave freely with the calls of the others.  (A goroutine that the
    loop has not started yet is one that has not been scheduled yet.) *)
Record pool := {
  threads : list (prog NodeBase);
  history : list (nat * (Call * Resp))
}.

(** One goroutine per node, in the order the [range] loop met them. *)
Definition spawn (linksMaxWorkers : N) (nodes : list NodeBase) : pool :=
  {| threads := goroutine linksMaxWorkers <$> nodes; history := [] |}.

(** Goroutine [i] makes its next call and receives [r]. *)
Definition advance (i : nat) (r : Resp) (s : pool) : pool :=
  match threads s !! i with
  | Some (Do c k) =>
      {| threads := <[i := k r]> (threads s);
         history := history s ++ [(i, (c, r))] |}
  | _ => s
  end.

(** The scheduler may pick any goroutine that has a call to make, and
    the outside world may answer anything. *)
Inductive step (s : pool) : pool → Prop :=
| step_thread i c k r :
    threads s !! i = Some (Do c k) → step s (advance i r s).

Inductive steps : pool → pool → Prop :=
| steps_refl s : steps s s
| steps_next s1 s2 s3 : step s1 s2 → steps s2 s3 → steps s1 s3.

Definition finished (p : prog NodeBase) : bool :=
  match p with Ret _ => true | Do _ _ => false end.

(** [wg.Wait()] returns once every goroutine has run [wg.Done()]. *)
Definition joined (s : pool) : Prop := Forall (λ p, finished p = true) (threads s).

(** The calls of goroutine [i], in order. *)
Definition thread_trace (i : nat) (h : list (nat * (Call * Resp))) : trace :=
  omap (λ e, if decide (e.1 = i) then Some e.2 else None) h.

(** What holds of the pool all along: one goroutine per node, and each
    goroutine is where its own calls and their answers take it,
    whatever the other goroutines did. *)
Definition on_track (lw : N) (nodes : list NodeBase) (s : pool) : Prop :=
  length (threads s) = length nodes ∧
  ∀ i node, nodes !! i = Some node →
    ∃ p, threads s !! i = Some p ∧
         runs (goroutine lw node) (thread_trace i (history s)) p.

(** The text of the error line of goroutine [node] for error [e]. *)
Definition failure_line (node : NodeBase) (e : string) : Call :=
  Log LError
    ("failed to run postdeploy task for node "
       +:+ nb_ShortName node +:+ ": " +:+ e).

(** An executable scheduler: follow [sched], a list of goroutine
    indices, answering calls with [env] (which sees the untagged
    history). *)
Fixpoint schedule (env : World) (sched : list nat) (s : pool) : pool :=
  match sched with
  | [] => s
  | i :: rest =>
      let s' :=
        match threads s !! i with
        | Some (Do c k) => advance i (env ((history s).*2) c) s
        | _ => s
        end in
      schedule env rest s'
  end.

End WithTasks.

(** [RunE] from [wg.Wait()] to its end. *)
Definition afterWait (containers : list GenericContainer)
    (mgmtNetwork : string) (linksMaxWorkers : N) : prog error :=
  _ ← call (CreateLinks linksMaxWorkers true);
  _ ← call (Log LInfo "Writing /etc/hosts file");
  err ← createHostsFile containers mgmtNetwork;
  _ ← match err with
      | Some e => call (Log LError ("failed to create hosts file: " +:+ e))
      | None => mret ok
      end;
  _ ← call NewVerNotification;
  _ ← call (PrintContainerInspect containers mgmtNetwork);
  mret None.

End Fanout.

(** ** The cEOS node kind *)

(** Functions of Go's standard library and of package [utils] that the
    cEOS kind calls and that compute a value without leaving the program,
    together with the embedded template.  They are taken as given. *)
Class GoLib := {
  (** [path.Join(elem...)] *)
  path_Join : list string → string;
  (** [filepath.Join(elem...)] *)
  filepath_Join : list string → string;
  (** [net.ParseMAC(s)]: the bytes of the hardware address, or an error *)
  ParseMAC : string → list Z + string;
  (** [net.HardwareAddr.String()] *)
  HardwareAddr_String : list Z → string;
  (** [utils.MergeStringMaps(m1, m2)] *)
  MergeStringMaps : gmap string string → gmap string string → gmap string string;
  (** [//go:embed ceos.cfg] *)
  cfgTemplate : string
}.

Module Ceos.

Definition set_Env (n : NodeConfig) (v : gmap string string) : NodeConfig :=
  {| ShortName := ShortName n; LongName := LongName n; LabDir := LabDir n;
     Env := v; Cmd := Cmd n; MacAddress := MacAddress n; Binds := Binds n;
     ResConfig := ResConfig n; ContainerID := ContainerID n;
     NSPath := NSPath n |}.
Definition set_Cmd (n : NodeConfig) (v : string) : NodeConfig :=
  {| ShortName := ShortName n; LongName := LongName n; LabDir := LabDir n;
     Env := Env n; Cmd := v; MacAddress := MacAddress n; Binds := Binds n;
     ResConfig := ResConfig n; ContainerID := ContainerID n;
     NSPath := NSPath n |}.
Definition set_MacAddress (n : NodeConfig) (v : string) : NodeConfig :=
  {| ShortName := ShortName n; LongName := LongName n; LabDir := LabDir n;
     Env := Env n; Cmd := Cmd n; MacAddress := v; Binds := Binds n;
     ResConfig := ResConfig n; ContainerID := ContainerID n;
     NSPath := NSPath n |}.
Definition set_Binds (n : NodeConfig) (v : list string) : NodeConfig :=
  {| ShortName := ShortName n; LongName := LongName n; LabDir := LabDir n;
     Env := Env n; Cmd := Cmd n; MacAddress := MacAddress n; Binds := v;
     ResConfig := ResConfig n; ContainerID := ContainerID n;
     NSPath := NSPath n |}.
Definition set_ResConfig (n : NodeConfig) (v : string) : NodeConfig :=
  {| ShortName := ShortName n; LongName := LongName n; LabDir := LabDir n;
     Env := Env n; Cmd := Cmd n; MacAddress := MacAddress n; Binds := Binds n;
     ResConfig := v; ContainerID := ContainerID n; NSPath := NSPath n |}.
Definition set_NSPath (n : NodeConfig) (v : string) : NodeConfig :=
  {| ShortName := ShortName n; LongName := LongName n; LabDir := LabDir n;
     Env := Env n; Cmd := Cmd n; MacAddress := MacAddress n; Binds := Binds n;
     ResConfig := ResConfig n; ContainerID := ContainerID n; NSPath := v |}.

(** [ceosEnv] *)
Definition ceosEnv : gmap string string :=
  list_to_map
    [ ("CEOS", "1");
      ("EOS_PLATFORM", "ceoslab");
      ("container", "docker");
      ("ETBA", "4");
      ("SKIP_ZEROTOUCH_BARRIER_IN_SYSDBINIT", "1");
      ("INTFTYPE", "eth");
      ("MAPETH0", "1");
      ("MGMT_INTF", "eth0") ].

(** What one iteration of the loop over [s.cfg.Env] writes. *)
Definition setenv (kv : string * string) : string :=
  "systemd.setenv=" +:+ kv.1 +:+ "=" +:+ kv.2 +:+ " ".

(** The string builder after [/sbin/init ] and one [setenv] per visited
    entry. *)
Definition buildCmd (visited : list (string * string)) : string :=
  foldl (λ sb kv, sb +:+ setenv kv) "/sbin/init " visited.

(** A [range] loop over map [m] visits each entry once.  Go does not
    specify the order and does not promise the same order from one loop to
    the next, so every arrangement of the entries is a possible visit. *)
Definition range_order (m : gmap string string)
    (visited : list (string * string)) : Prop :=
  visited ≡ₚ map_to_list m.

(** Byte addition wraps at 256. *)
Definition byte_add (a b : Z) : Z := ((a + b) mod 256)%Z.

Definition is_byte (b : Z) : Prop := (0 ≤ b < 256)%Z.

Section WithGoLib.
Context `{GoLib}.

(** [ceos.Init(cfg, opts...)].  An option is a callback on the node.
    [visited] is the order in which the loop over the merged
    environment meets its entries ([range_order]); [mac] is what
    [utils.GenMac("00:1c:73")] returned. *)
Definition Init (cfg : NodeConfig) (opts : list (NodeConfig → NodeConfig))
    (visited : list (string * string)) (mac : string)
    : NodeConfig * error :=
  let cfg := foldl (λ s o, o s) cfg opts in
  let cfg := set_Env cfg (MergeStringMaps ceosEnv (Env cfg)) in
  let cfg := set_Cmd cfg (buildCmd visited) in
  let cfg := set_MacAddress cfg mac in
  let cfgPath := filepath_Join [LabDir cfg; "flash"] in
  let cfg := set_Binds cfg (Binds cfg ++ [cfgPath +:+ ":/mnt/flash/"]) in
  (cfg, None).

(** The environment [Init] serialises: the one it stores in the node. *)
Definition mergedEnv (cfg : NodeConfig)
    (opts : list (NodeConfig → NodeConfig)) : gmap string string :=
  MergeStringMaps ceosEnv (Env (foldl (λ s o, o s) cfg opts)).

(** [Init] can return [cfg']: some visiting order of the merged
    environment and some generated MAC give it. *)
Definition Init_returns (cfg : NodeConfig)
    (opts : list (NodeConfig → NodeConfig)) (cfg' : NodeConfig) : Prop :=
  ∃ visited mac,
    range_order (mergedEnv cfg opts) visited ∧
    Init cfg opts visited mac = (cfg', None).

Definition system_mac_path (node : NodeConfig) : string :=
  path_Join [LabDir node; "flash"; "system_mac_address"].

(** [createCEOSFiles(node)].  [m[5]] panics when the address has fewer
    than six bytes. *)
Definition createCEOSFiles (node : NodeConfig)
    : prog (outcome (NodeConfig * error)) :=
  _ ← call (CreateDirectory (path_Join [LabDir node; "flash"]) 511 (* 0777 *));
  let cfg := path_Join [LabDir node; "flash"; "startup-config"] in
  let node := set_ResConfig node cfg in
  match ParseMAC (MacAddress node) with
  | inr err => mret (Returned (node, Some err))
  | inl m =>
      match m !! 5%nat with
      | None => mret (Panicked "index out of range")
      | Some m5 =>
          let m := <[5%nat := byte_add m5 1]> m in
          _ ← call (CreateFile (system_mac_path node)
                      (HardwareAddr_String m));
          mret (Returned (node, None))
      end
  end.

(** [ceos.PreDeploy(configName, labCADir, labCARoot)] *)
Definition PreDeploy (node : NodeConfig)
    (configName labCADir labCARoot : string)
    : prog (outcome (NodeConfig * error)) :=
  _ ← call (CreateDirectory (LabDir node) 511 (* 0777 *));
  createCEOSFiles node.

(** [ceosPostDeploy(ctx, r, nodeCfg)].  The assignment
    [nodeCfg.NSPath, err = r.GetNSPath(...)] stores the path before
    the error is looked at. *)
Definition ceosPostDeploy (nodeCfg : NodeConfig)
    : prog (NodeConfig * error) :=
  g ← call (GenerateConfig nodeCfg (ResConfig nodeCfg) cfgTemplate);
  match r_err g with
  | Some err => mret (nodeCfg, Some err)
  | None =>
      _ ← call (Log LInfo
             ("Restarting '" +:+ ShortName nodeCfg +:+ "' node"));
      let timeout := 1%Z in
      s ← call (StopContainer (ContainerID nodeCfg) timeout);
      match r_err s with
      | Some err => mret (nodeCfg, Some err)
      | None =>
          d ← call (DeleteNetnsSymlink (LongName nodeCfg));
          match r_err d with
          | Some err => mret (nodeCfg, Some err)
          | None =>
              st ← call (StartContainer (ContainerID nodeCfg));
              match r_err st with
              | Some err => mret (nodeCfg, Some err)
              | None =>
                  ns ← call (GetNSPath (ContainerID nodeCfg));
                  let nodeCfg := set_NSPath nodeCfg (r_val ns) in
                  match r_err ns with
                  | Some err => mret (nodeCfg, Some err)
                  | None =>
                      l ← call (LinkContainerNS (NSPath nodeCfg)
                                  (LongName nodeCfg));
                      mret (nodeCfg, r_err l)
                  end
              end
          end
      end
  end.

(** [ceos.PostDeploy(ctx, r, ns)] *)
Definition PostDeploy (cfg : NodeConfig) : prog (NodeConfig * error) :=
  _ ← call (Log LDebug
         ("Running postdeploy actions for Arista cEOS '"
            +:+ ShortName cfg +:+ "' node"));
  ceosPostDeploy cfg.

(** The debug line [PostDeploy] starts with. *)
Definition debug_line (cfg : NodeConfig) : Call :=
  Log LDebug
    ("Running postdeploy actions for Arista cEOS '"
       +:+ ShortName cfg +:+ "' node").

(** The steps of the bootstrap protocol for [cfg], in program order,
    when the runtime reports [nspath] as the new namespace path. *)
Definition protocol (cfg : NodeConfig) (nspath : string) : list Call :=
  [ GenerateConfig cfg (ResConfig cfg) cfgTemplate;
    Log LInfo ("Restarting '" +:+ ShortName cfg +:+ "' node");
    StopContainer (ContainerID cfg) 1;
    DeleteNetnsSymlink (LongName cfg);
    StartContainer (ContainerID cfg);
    GetNSPath (ContainerID cfg);
    LinkContainerNS nspath (LongName cfg) ].

End WithGoLib.

End Ceos.

(** ** Concrete data for the examples *)

Module Sample.
Import Hosts Enrich.

Definition mgmt (set : bool) (v4 v6 : string) : GenericMgmtIPs :=
  {| Set_ := set; IPv4addr := v4; IPv4pLen := 24; IPv6addr := v6;
     IPv6pLen := 64 |}.

Definition container (nm id node : string) (set : bool) (v4 v6 : string)
    : GenericContainer :=
  {| Names := [nm]; ID := id; Labels := {[ node_label := node ]};
     NetworkSettings := mgmt set v4 v6 |}.

(** The two containers of the hosts-generation example; the example does
    not say whether their network settings are populated, so the flags
    are arguments. *)
Definition two_containers (set1 set2 : bool) : list GenericContainer :=
  [ container "/r1" "id1" "r1" set1 "172.20.20.2" "";
    container "/r2" "id2" "r2" set2 "172.20.20.3" "2001:db8::3" ].

Definition line (addr nm : string) : string := addr +:+ TAB +:+ nm +:+ LF.

(** A stand-in for the library functions, enough to run the examples:
    paths are joined with "/" (no cleaning), hardware addresses are six,
    eight or twenty colon-separated pairs of hexadecimal digits, and the
    second map wins when maps are merged. *)
Fixpoint join_with (sep : string) (l : list string) : string :=
  match l with
  | [] => ""
  | [x] => x
  | x :: rest => x +:+ sep +:+ join_with sep rest
  end.

Definition hex_val (c : ascii) : option Z :=
  let n := Z.of_nat (nat_of_ascii c) in
  if (48 <=? n)%Z && (n <=? 57)%Z then Some (n - 48)%Z
  else if (97 <=? n)%Z && (n <=? 102)%Z then Some (n - 87)%Z
  else if (65 <=? n)%Z && (n <=? 70)%Z then Some (n - 55)%Z
  else None.

Definition hex_char (n : Z) : ascii :=
  if (n <? 10)%Z then ascii_of_nat (Z.to_nat (n + 48))
  else ascii_of_nat (Z.to_nat (n + 87)).

Definition parse_pair (s : string) : option Z :=
  match s with
  | String a (String b EmptyString) =>
      hi ← hex_val a; lo ← hex_val b; Some (16 * hi + lo)%Z
  | _ => None
  end.

Definition print_pair (b : Z) : string :=
  String (hex_char (b / 16)) (String (hex_char (b mod 16)) "").

Fixpoint split_on (sep : ascii) (acc s : string) : list string :=
  match s with
  | EmptyString => [acc]
  | String c rest =>
      if Ascii.eqb c sep then acc :: split_on sep "" rest
      else split_on sep (acc +:+ String c "") rest
  end.

Definition parse_mac (s : string) : list Z + string :=
  match mapM parse_pair (split_on ":" "" s) with
  | Some bytes =>
      let n := length bytes in
      if (n =? 6)%nat || (n =? 8)%nat || (n =? 20)%nat then inl bytes
      else inr ("address " +:+ s +:+ ": invalid MAC address")
  | None => inr ("address " +:+ s +:+ ": invalid MAC address")
  end.

Definition print_mac (m : list Z) : string :=
  join_with ":" (print_pair <$> m).

#[export] Instance lib : GoLib := {|
  path_Join := join_with "/";
  filepath_Join := join_with "/";
  ParseMAC := parse_mac;
  HardwareAddr_String := print_mac;
  MergeStringMaps := λ m1 m2, m2 ∪ m1;
  cfgTemplate := "hostname {{ .ShortName }}"
|}.

Definition ceos1 : NodeConfig :=
  {| ShortName := "ceos1"; LongName := "clab-lab-ceos1";
     LabDir := "/lab/ceos1"; Env := ∅; Cmd := "";
     MacAddress := "00:1c:73:aa:bb:ff"; Binds := [];
     ResConfig := "/lab/ceos1/flash/startup-config";
     ContainerID := "c0ffee"; NSPath := "" |}.

(** A world in which every call succeeds and the runtime reports the
    namespace path "/proc/4242/ns/net". *)
Definition all_fine : World :=
  λ _ c, match c with
         | GetNSPath _ => ok_val "/proc/4242/ns/net"
         | _ => ok
         end.

(** A world in which stopping container [id] fails. *)
Definition stop_fails (id : string) : World :=
  λ _ c, match c with
         | StopContainer id' _ =>
             if String.eqb id id' then failed "no such container" else ok
         | GetNSPath _ => ok_val "/proc/4242/ns/net"
         | _ => ok
         end.

(** A world in which exactly the calls selected by [sel] fail. *)
Definition fails_when (sel : Call → bool) : World :=
  λ _ c, if sel c then failed "boom"
         else match c with
              | GetNSPath _ => ok_val "/proc/4242/ns/net"
              | _ => ok
              end.

(** A post-deploy task for the examples: run the cEOS [PostDeploy] on a
    node configuration built from the node. *)
Definition nodeConfigOf (n : NodeBase) : NodeConfig :=
  {| ShortName := nb_ShortName n;
     LongName := "clab-lab-" +:+ nb_ShortName n;
     LabDir := "/lab/" +:+ nb_ShortName n; Env := ∅; Cmd := "";
     MacAddress := "00:1c:73:aa:bb:ff"; Binds := [];
     ResConfig := "/lab/" +:+ nb_ShortName n +:+ "/flash/startup-config";
     ContainerID := nb_ContainerID n; NSPath := "" |}.

Definition execCeos (node : NodeBase) (lworkers : N)
    : prog (NodeBase * error) :=
  '(_, err) ← Ceos.PostDeploy (nodeConfigOf node);
  mret (node, err).

Definition nodeBase (nm id : string) : NodeBase :=
  {| nb_ShortName := nm; nb_NetworkMode := "";
     nb_MgmtIPv4Address := ""; nb_MgmtIPv4PrefixLength := 0;
     nb_MgmtIPv6Address := ""; nb_MgmtIPv6PrefixLength := 0;
     nb_ContainerID := id |}.

End Sample.


(** ** Flags ([setFlags]) *)

Module Flags.

(** [clab.Config], the fields [setFlags] writes. *)
Record MgmtNet := {
  Network : string;
  IPv4Subnet : string;
  IPv6Subnet : string
}.

Record Config := {
  Name : string;
  Mgmt : MgmtNet
}.

(** The package-level variables [setFlags] reads.  Of the two [net.IPNet]
    flags only [String()] is used, so each is given by that text; it is
    "<nil>" for the flag's default, the zero [net.IPNet]. *)
Record flags := {
  name : string;
  mgmtNetName : string;
  mgmtIPv4Subnet : string;
  mgmtIPv6Subnet : string
}.

Definition set_Name (conf : Config) (v : string) : Config :=
  {| Name := v; Mgmt := Mgmt conf |}.
Definition set_Network (conf : Config) (v : string) : Config :=
  {| Name := Name conf;
     Mgmt := {| Network := v; IPv4Subnet := IPv4Subnet (Mgmt conf);
                IPv6Subnet := IPv6Subnet (Mgmt conf) |} |}.
Definition set_IPv4Subnet (conf : Config) (v : string) : Config :=
  {| Name := Name conf;
     Mgmt := {| Network := Network (Mgmt conf); IPv4Subnet := v;
                IPv6Subnet := IPv6Subnet (Mgmt conf) |} |}.
Definition set_IPv6Subnet (conf : Config) (v : string) : Config :=
  {| Name := Name conf;
     Mgmt := {| Network := Network (Mgmt conf);
                IPv4Subnet := IPv4Subnet (Mgmt conf); IPv6Subnet := v |} |}.

(** [setFlags(conf)] *)
Definition setFlags (f : flags) (conf : Config) : Config :=
  let conf := if negb (String.eqb (name f) "") then set_Name conf (name f)
              else conf in
  let conf := if negb (String.eqb (mgmtNetName f) "")
              then set_Network conf (mgmtNetName f) else conf in
  let conf := if negb (String.eqb (mgmtIPv4Subnet f) "<nil>")
              then set_IPv4Subnet conf (mgmtIPv4Subnet f) else conf in
  let conf := if negb (String.eqb (mgmtIPv6Subnet f) "<nil>")
              then set_IPv6Subnet conf (mgmtIPv6Subnet f) else conf in
  conf.

(** The flags as [cobra] leaves them when none is given on the command
    line. *)
Definition defaults : flags :=
  {| name := ""; mgmtNetName := ""; mgmtIPv4Subnet := "<nil>";
     mgmtIPv6Subnet := "<nil>" |}.

End Flags.

(** ** Reading a hosts blob back *)

Module HostsLines.
Import Hosts.

(** A container that makes [hostsEntries] write something: it has a name,
    populated network settings and at least one address. *)
Definition contributes (c : GenericContainer) : bool :=
  match Names c with
  | [] => false
  | _ :: _ =>
      Set_ (NetworkSettings c)
      && (negb (String.eqb (IPv4addr (NetworkSettings c)) "")
          || negb (String.eqb (IPv6addr (NetworkSettings c)) ""))
  end.

(** The lines expected of a container, without their line feed. *)
Definition linesOf (c : GenericContainer) : list string :=
  match Names c with
  | [] => []
  | name0 :: _ =>
      if Set_ (NetworkSettings c) then
        (if String.eqb (IPv4addr (NetworkSettings c)) "" then []
         else [IPv4addr (NetworkSettings c) +:+ TAB +:+ TrimLeft name0 "/"])
        ++
        (if String.eqb (IPv6addr (NetworkSettings c)) "" then []
         else [IPv6addr (NetworkSettings c) +:+ TAB +:+ TrimLeft name0 "/"])
      else []
  end.

(** No line feed among the bytes of [s]. *)
Definition no_LF (s : string) : Prop := mem_byte "010"%char s = false.

(** The addresses and the first name of a container hold no line feed. *)
Definition one_line_fields (c : GenericContainer) : Prop :=
  no_LF (IPv4addr (NetworkSettings c)) ∧
  no_LF (IPv6addr (NetworkSettings c)) ∧
  ∀ name0, head (Names c) = Some name0 → no_LF name0.


End HostsLines.

(** ** More concrete data for the examples *)

Module MoreSample.
Import Sample.

(** [ceos1] with an eight-byte (EUI-64) address, and with an address that
    does not parse. *)
Definition with_mac (mac : string) : NodeConfig :=
  Ceos.set_MacAddress ceos1 mac.

Definition ceos_eui64 : NodeConfig := with_mac "00:1c:73:aa:bb:ff:01:02".
Definition ceos_badmac : NodeConfig := with_mac "not-a-mac".

(** Call selectors for [fails_when]. *)
Definition is_delete (c : Call) : bool :=
  match c with DeleteNetnsSymlink _ => true | _ => false end.
Definition is_getns (c : Call) : bool :=
  match c with GetNSPath _ => true | _ => false end.


End MoreSample.

(** * Properties *)

(** ** Facts about strings *)

Lemma append_cons (x : ascii) (a b : string) :
  String x a +:+ b = String x (a +:+ b).
Proof. reflexivity. Qed.

Lemma append_assoc (a b c : string) : (a +:+ b) +:+ c = a +:+ (b +:+ c).
Proof.
  induction a as [|x a IH]; [done|].
  by rewrite !append_cons, IH.
Qed.

Lemma append_nil_r (a : string) : a +:+ "" = a.
Proof.
  induction a as [|x a IH]; [done|].
  by rewrite append_cons, IH.
Qed.

Lemma length_append (a b : string) :
  String.length (a +:+ b) = (String.length a + String.length b)%nat.
Proof.
  induction a as [|x a IH]; [done|].
  rewrite !append_cons; cbn [String.length]; by rewrite IH.
Qed.

(** ** Worker limits *)

(** C3. For every configured maximum [M] and item counts, the limit
    computed for nodes and the one computed for links are the item count
    when [M = 0] and [min M count] otherwise, and lie between 1 and the
    item count as soon as there is an item. *)
Theorem workerLimits_bounds (M numNodes numLinks : N) :
  let Ln := (Workers.workerLimits M numNodes numLinks).1 in
  let Ll := (Workers.workerLimits M numNodes numLinks).2 in
  (M = 0 → Ln = numNodes ∧ Ll = numLinks)%N ∧
  (M ≠ 0 → Ln = N.min M numNodes ∧ Ll = N.min M numLinks)%N ∧
  (1 ≤ numNodes → 1 ≤ Ln ≤ numNodes)%N ∧
  (1 ≤ numLinks → 1 ≤ Ll ≤ numLinks)%N.
Proof.
  unfold Workers.workerLimits.
  destruct (N.eqb_spec M 0) as [->|HM]; cbn [fst snd].
  - rewrite !N.ltb_irrefl. repeat split; try lia; intros; lia.
  - destruct (N.ltb_spec numNodes M), (N.ltb_spec numLinks M);
      repeat split; intros; try lia.
Qed.

Lemma workerLimits_bounds_witness :
  (1 ≤ (Workers.workerLimits 3 5 2).1 ≤ 5)%N ∧
  (1 ≤ (Workers.workerLimits 3 5 2).2 ≤ 2)%N.
Proof.
  pose proof (workerLimits_bounds 3 5 2) as (_ & _ & Hn & Hl).
  split; [apply Hn | apply Hl]; lia.
Defined.

(** ** Hosts generation *)

Section HostsProperties.
Import Hosts HostsFile Sample.

Lemma hostsEntries_app cs1 cs2 bridge :
  hostsEntries (cs1 ++ cs2) bridge
  = hostsEntries cs1 bridge +:+ hostsEntries cs2 bridge.
Proof.
  induction cs1 as [|c cs1 IH]; simpl; [done|].
  rewrite IH. by rewrite append_assoc.
Qed.

Lemma entriesOf_not_set c :
  Set_ (NetworkSettings c) = false → entriesOf c = "".
Proof. unfold entriesOf. intros ->. by destruct (Names c). Qed.

(** C4, as the code has it. For the containers r1 (IPv4 only) and r2
    (IPv4 and IPv6) with populated network settings and bridge "clab",
    the blob is one line for r1 and two lines for r2 (IPv4 then IPv6),
    each of the form address, tab, name, line feed, the name without
    its leading slash. *)
Theorem hostsEntries_example :
  hostsEntries (two_containers true true) "clab"
  = line "172.20.20.2" "r1" +:+ line "172.20.20.3" "r2"
      +:+ line "2001:db8::3" "r2"
  ∧ lines_for "r1" (hostsEntries (two_containers true true) "clab")
    = ["172.20.20.2" +:+ TAB +:+ "r1"]
  ∧ lines_for "r2" (hostsEntries (two_containers true true) "clab")
    = ["172.20.20.3" +:+ TAB +:+ "r2"; "2001:db8::3" +:+ TAB +:+ "r2"].
Proof. repeat split; reflexivity. Qed.

(** C4, as stated, fails: whatever the two network-settings flags are,
    the blob never holds two lines for r1 (there is one when r1's
    settings are populated, none otherwise), and it has three lines in
    all when both are populated. *)
Lemma hostsEntries_example_r1_lines :
  Forall (λ set : bool * bool,
            (length (lines_for "r1"
               (hostsEntries (two_containers set.1 set.2) "clab")) < 2)%nat)
         [(true, true); (true, false); (false, true); (false, false)]
  ∧ length (lines (hostsEntries (two_containers true true) "clab")) = 3%nat.
Proof.
  split; [|reflexivity].
  repeat constructor; vm_compute; lia.
Qed.

(** C6. With an empty bridge name and at least one eligible container
    the hosts-file operation returns an error (before any call); when no
    container has its network settings populated the generated blob is
    empty, whatever the bridge name. *)
Theorem hosts_empty_bridge_or_none_eligible :
  (∀ cs, Exists eligible cs →
     createHostsFile cs "" = Ret (Some "missing bridge name")) ∧
  (∀ cs bridge, Forall (λ c, ¬ eligible c) cs →
     hostsEntries cs bridge = "").
Proof.
  split.
  - intros cs _. reflexivity.
  - intros cs bridge Hcs. induction Hcs as [|c cs Hc _ IH]; [done|].
    simpl. rewrite IH, entriesOf_not_set; [done|].
    unfold eligible in Hc. by destruct (Set_ (NetworkSettings c)).
Qed.

Lemma hosts_empty_bridge_or_none_eligible_witness :
  createHostsFile (two_containers true true) ""
    = Ret (Some "missing bridge name")
  ∧ hostsEntries (two_containers false false) "clab" = "".
Proof.
  destruct hosts_empty_bridge_or_none_eligible as [Herr Hblob].
  split.
  - apply Herr. apply Exists_cons_hd. reflexivity.
  - apply Hblob. repeat constructor; unfold eligible; simpl; congruence.
Defined.

(** C9. When the generated blob has zero bytes and the bridge name is
    not empty, the hosts-file operation makes no call at all (it does
    not open, create or append to the file) and returns nil. *)
Theorem createHostsFile_nothing_to_write cs bridge :
  bridge ≠ "" →
  len (hostsEntries cs bridge) = 0%nat →
  createHostsFile cs bridge = Ret None
  ∧ (∀ env tr, interp env (createHostsFile cs bridge) tr = (None, tr))
  ∧ (∀ t e, returns (createHostsFile cs bridge) t e → t = [] ∧ e = None).
Proof.
  intros Hb Hlen.
  assert (createHostsFile cs bridge = Ret None) as Heq.
  { unfold createHostsFile.
    destruct (String.eqb_spec bridge "") as [|_]; [done|].
    by rewrite Hlen. }
  rewrite Heq. split; [done|]. split; [done|].
  intros t e Hr. inversion Hr; subst. done.
Qed.

Lemma createHostsFile_nothing_to_write_witness :
  createHostsFile (two_containers false false) "clab" = Ret None.
Proof.
  apply (createHostsFile_nothing_to_write (two_containers false false) "clab").
  - discriminate.
  - reflexivity.
Defined.

End HostsProperties.

(** ** Enrichment *)

Section EnrichProperties.
Import Enrich.

Example isHost_any_case :
  isHost {| nb_ShortName := "n"; nb_NetworkMode := "HoSt";
            nb_MgmtIPv4Address := ""; nb_MgmtIPv4PrefixLength := 0;
            nb_MgmtIPv6Address := ""; nb_MgmtIPv6PrefixLength := 0;
            nb_ContainerID := "" |} = true
  ∧ TrimLeft "//r1" "/" = "r1".
Proof. split; reflexivity. Qed.

Lemma enrichStep_lookup st c k :
  nodes (enrichStep st c) !! k = upd k c <$> nodes st !! k.
Proof.
  unfold enrichStep, upd. fold (label c).
  destruct (nodes st !! label c) as [node|] eqn:Hl.
  - destruct (isHost node) eqn:Hh; simpl.
    + destruct (decide (label c = k)) as [<-|].
      * by rewrite Hl; simpl; rewrite Hh.
      * by destruct (nodes st !! k).
    + destruct (decide (label c = k)) as [<-|Hne].
      * by rewrite lookup_insert_eq, Hl; simpl; rewrite Hh.
      * rewrite lookup_insert_ne by done. by destruct (nodes st !! k).
  - simpl. destruct (decide (label c = k)) as [<-|].
    + by rewrite Hl.
    + by destruct (nodes st !! k).
Qed.

Lemma enrichNodes_lookup cs st net k :
  nodes (enrichNodes cs st net) !! k = upds k cs <$> nodes st !! k.
Proof.
  unfold enrichNodes, upds. revert st.
  induction cs as [|c cs IH]; intros st; simpl.
  - by destruct (nodes st !! k).
  - rewrite IH, enrichStep_lookup. by destruct (nodes st !! k).
Qed.

Lemma enrichNodes_name cs st net :
  name (enrichNodes cs st net) = default (name st) (label <$> last cs).
Proof.
  unfold enrichNodes. revert st.
  induction cs as [|c cs IH]; intros st; [done|].
  simpl. rewrite IH.
  assert (name (enrichStep st c) = label c) as ->.
  { unfold enrichStep.
    destruct (nodes st !! _) as [node|]; [destruct (isHost node)|]; done. }
  destruct cs as [|c' cs]; [done|].
  change (last (c :: c' :: cs)) with (last (c' :: cs)).
  destruct (last (c' :: cs)) eqn:Hlast; [done|].
  by apply last_None in Hlast.
Qed.

Lemma upd_mode k c n : nb_NetworkMode (upd k c n) = nb_NetworkMode n.
Proof. unfold upd, writeNode. by repeat case_match. Qed.

Lemma upd_isHost k c n : isHost (upd k c n) = isHost n.
Proof. unfold isHost. by rewrite upd_mode. Qed.

Lemma upd_idem k c n : upd k c (upd k c n) = upd k c n.
Proof.
  unfold upd. destruct (decide (label c = k)); [|done].
  destruct (isHost n) eqn:Hh; [by rewrite Hh|].
  assert (isHost (writeNode c n) = false) as ->.
  { unfold isHost, writeNode in *. by case_match. }
  unfold writeNode. by case_match.
Qed.

(** Two nodes that one iteration makes equal stay equal under it after
    any other iteration. *)
Lemma upd_absorb k c d y z :
  upd k c y = upd k c z → upd k c (upd k d y) = upd k c (upd k d z).
Proof.
  intros Heq.
  assert (isHost y = isHost z) as Hyz.
  { by rewrite <-(upd_isHost k c y), Heq, upd_isHost. }
  revert Heq. unfold upd.
  destruct (decide (label c = k)); [|by intros ->].
  destruct (decide (label d = k)); [|done].
  rewrite <-Hyz. destruct (isHost y) eqn:Hy.
  { intros ->. by rewrite <-Hyz. }
  assert (∀ n, isHost n = false → isHost (writeNode d n) = false) as Hw.
  { intros n. unfold isHost, writeNode. by case_match. }
  rewrite !Hw by congruence.
  clear. unfold writeNode, with_id, with_mgmt. destruct y, z.
  destruct (Set_ (NetworkSettings c)), (Set_ (NetworkSettings d)); simpl;
    intros Heq; injection Heq; intros; subst; reflexivity.
Qed.

Lemma upds_absorb k c cs y z :
  upd k c y = upd k c z → upd k c (upds k cs y) = upd k c (upds k cs z).
Proof.
  unfold upds. revert y z.
  induction cs as [|d cs IH]; intros y z Heq; simpl; [done|].
  apply IH. by apply upd_absorb.
Qed.

Lemma upds_snoc k cs c n : upds k (cs ++ [c]) n = upd k c (upds k cs n).
Proof. unfold upds. by rewrite foldl_app. Qed.

Lemma upds_idem k cs n : upds k cs (upds k cs n) = upds k cs n.
Proof.
  revert n. induction cs as [|c cs IH] using rev_ind; intros n; [done|].
  rewrite !upds_snoc.
  rewrite (upds_absorb k c cs (upd k c (upds k cs n)) (upds k cs n))
    by apply upd_idem.
  by rewrite IH.
Qed.

(** C7. Applying [enrichNodes] a second time to the same containers
    changes nothing: the node map (hence every node's management
    addresses, prefix lengths and container ID) and the variable [name]
    are what they were after the first application. *)
Theorem enrichNodes_idempotent cs st net :
  enrichNodes cs (enrichNodes cs st net) net = enrichNodes cs st net
  ∧ ∀ k n1 n2,
      nodes (enrichNodes cs st net) !! k = Some n1 →
      nodes (enrichNodes cs (enrichNodes cs st net) net) !! k = Some n2 →
      nb_MgmtIPv4Address n2 = nb_MgmtIPv4Address n1 ∧
      nb_MgmtIPv4PrefixLength n2 = nb_MgmtIPv4PrefixLength n1 ∧
      nb_MgmtIPv6Address n2 = nb_MgmtIPv6Address n1 ∧
      nb_MgmtIPv6PrefixLength n2 = nb_MgmtIPv6PrefixLength n1 ∧
      nb_ContainerID n2 = nb_ContainerID n1.
Proof.
  assert (enrichNodes cs (enrichNodes cs st net) net = enrichNodes cs st net)
    as Heq.
  { assert (∀ a b : state, name a = name b → nodes a = nodes b → a = b)
      as Hext by (intros [] []; simpl; congruence).
    apply Hext.
    - rewrite !enrichNodes_name. by destruct (last cs).
    - apply map_eq; intros k. rewrite !enrichNodes_lookup.
      destruct (nodes st !! k) as [n|]; simpl; [|done].
      by rewrite upds_idem. }
  split; [done|].
  intros k n1 n2 H1 H2. rewrite Heq, H1 in H2. by simplify_eq.
Qed.

Lemma enrichNodes_idempotent_witness :
  let st := {| name := "";
               nodes := {[ "r1" := {| nb_ShortName := "r1";
                                      nb_NetworkMode := "";
                                      nb_MgmtIPv4Address := "";
                                      nb_MgmtIPv4PrefixLength := 0;
                                      nb_MgmtIPv6Address := "";
                                      nb_MgmtIPv6PrefixLength := 0;
                                      nb_ContainerID := "" |} ]} |} in
  let cs := Sample.two_containers true false in
  enrichNodes cs (enrichNodes cs st "clab") "clab" = enrichNodes cs st "clab".
Proof. intros st cs. apply (enrichNodes_idempotent cs st "clab"). Defined.

(** C10. For a container matched to a node: on host networking (any
    letter case) the node map is left as it was, container ID included;
    otherwise the node's container ID becomes the container's, the four
    management fields become the container's when its [Set] flag is true
    and keep their values when it is false, and the node's other fields
    and all other nodes are untouched. *)
Theorem enrichStep_frame st c node :
  nodes st !! label c = Some node →
  (∀ k, k ≠ label c → nodes (enrichStep st c) !! k = nodes st !! k) ∧
  (ToLower (nb_NetworkMode node) = "host" →
     nodes (enrichStep st c) = nodes st) ∧
  (ToLower (nb_NetworkMode node) ≠ "host" →
     ∃ node',
       nodes (enrichStep st c) !! label c = Some node' ∧
       nb_ContainerID node' = ID c ∧
       nb_ShortName node' = nb_ShortName node ∧
       nb_NetworkMode node' = nb_NetworkMode node ∧
       (Set_ (NetworkSettings c) = true →
          nb_MgmtIPv4Address node' = IPv4addr (NetworkSettings c) ∧
          nb_MgmtIPv4PrefixLength node' = IPv4pLen (NetworkSettings c) ∧
          nb_MgmtIPv6Address node' = IPv6addr (NetworkSettings c) ∧
          nb_MgmtIPv6PrefixLength node' = IPv6pLen (NetworkSettings c)) ∧
       (Set_ (NetworkSettings c) = false →
          nb_MgmtIPv4Address node' = nb_MgmtIPv4Address node ∧
          nb_MgmtIPv4PrefixLength node' = nb_MgmtIPv4PrefixLength node ∧
          nb_MgmtIPv6Address node' = nb_MgmtIPv6Address node ∧
          nb_MgmtIPv6PrefixLength node' = nb_MgmtIPv6PrefixLength node)).
Proof.
  intros Hl. split; [|split].
  - intros k Hk. rewrite enrichStep_lookup. unfold upd.
    destruct (decide (label c = k)); [congruence|].
    by destruct (nodes st !! k).
  - intros Hhost. unfold enrichStep. fold (label c). rewrite Hl.
    unfold isHost. rewrite Hhost. reflexivity.
  - intros Hhost. exists (writeNode c node).
    split.
    + unfold enrichStep. fold (label c). rewrite Hl.
      unfold isHost. destruct (String.eqb_spec (ToLower (nb_NetworkMode node)) "host");
        [done|]. simpl. by rewrite lookup_insert_eq.
    + unfold writeNode. destruct (Set_ (NetworkSettings c)); simpl;
        repeat split; intros; congruence.
Qed.

Lemma enrichStep_frame_witness :
  let node := {| nb_ShortName := "r1"; nb_NetworkMode := "bridge";
                 nb_MgmtIPv4Address := ""; nb_MgmtIPv4PrefixLength := 0;
                 nb_MgmtIPv6Address := ""; nb_MgmtIPv6PrefixLength := 0;
                 nb_ContainerID := "" |} in
  let st := {| name := ""; nodes := {[ "r1" := node ]} |} in
  let c := Sample.container "/r1" "id1" "r1" true "172.20.20.2" "" in
  ∃ node',
    nodes (enrichStep st c) !! "r1" = Some node' ∧
    nb_ContainerID node' = "id1" ∧
    nb_MgmtIPv4Address node' = "172.20.20.2".
Proof.
  intros node st c.
  destruct (enrichStep_frame st c node) as (_ & _ & Hwrite); [reflexivity|].
  destruct Hwrite as (node' & Hl & Hid & _ & _ & Hset & _); [discriminate|].
  exists node'. split; [exact Hl|]. split; [exact Hid|].
  destruct Hset as (H4 & _); [reflexivity|]. exact H4.
Defined.

End EnrichProperties.

(** ** Programs and their runs *)

Section ProgProperties.
Context {A : Type}.
Implicit Types (p q : prog A) (t : trace).

Lemma runs_Ret_inv (a : A) t q : runs (Ret a) t q → t = [] ∧ q = Ret a.
Proof. by inversion 1. Qed.

Lemma runs_Do_inv c (k : Resp → prog A) t q :
  runs (Do c k) t q →
  (t = [] ∧ q = Do c k) ∨ ∃ r t', t = (c, r) :: t' ∧ runs (k r) t' q.
Proof. inversion 1; subst; [by left|right; eauto]. Qed.

Lemma returns_Do_inv c (k : Resp → prog A) t (a : A) :
  returns (Do c k) t a → ∃ r t', t = (c, r) :: t' ∧ returns (k r) t' a.
Proof. intros [[_ [=]]|Hr]%runs_Do_inv. exact Hr. Qed.

Lemma runs_trans p t1 q t2 q' : runs p t1 q → runs q t2 q' → runs p (t1 ++ t2) q'.
Proof. induction 1; simpl; [done|]. intros. constructor. auto. Qed.

Lemma runs_snoc p t c k r : runs p t (Do c k) → runs p (t ++ [(c, r)]) (k r).
Proof. intros Hr. eapply runs_trans; [exact Hr|]. repeat constructor. Qed.

Lemma runs_Ret_snoc_inv (a : A) pre c r q :
  ¬ runs (Ret a) (pre ++ [(c, r)]) q.
Proof. intros [Hnil _]%runs_Ret_inv. by destruct pre. Qed.

Lemma runs_Do_snoc_inv c0 (k0 : Resp → prog A) pre c r q :
  runs (Do c0 k0) (pre ++ [(c, r)]) q →
  (pre = [] ∧ c = c0 ∧ q = k0 r) ∨
  (∃ r0 pre', pre = (c0, r0) :: pre' ∧ runs (k0 r0) (pre' ++ [(c, r)]) q).
Proof.
  intros [[Hnil _]|(r0 & t' & Heq & Hr)]%runs_Do_inv; [by destruct pre|].
  destruct pre as [|x pre]; simpl in Heq; simplify_eq.
  - left. by inversion Hr.
  - right. eauto.
Qed.

(** The run of [interp] is one of the runs. *)
Lemma interp_returns env p tr :
  ∃ t, (interp env p tr).2 = tr ++ t ∧ returns p t (interp env p tr).1.
Proof.
  revert tr. induction p as [a|c k IH]; intros tr; simpl.
  - exists []. split; [by rewrite app_nil_r|constructor].
  - destruct (IH (env tr c) (tr ++ [(c, env tr c)])) as (t & Ht & Hr).
    exists ((c, env tr c) :: t). split.
    + by rewrite Ht, <-app_assoc.
    + by constructor.
Qed.

End ProgProperties.

Lemma returns_bind_inv {A B} (m : prog A) (f : A → prog B) t (b : B) :
  returns (m ≫= f) t b →
  ∃ t1 a t2, returns m t1 a ∧ returns (f a) t2 b ∧ t = t1 ++ t2.
Proof.
  revert t. induction m as [a|c k IH]; intros t Hr.
  - exists [], a, t. repeat split; [constructor|exact Hr].
  - apply returns_Do_inv in Hr as (r & t' & -> & Hr).
    apply IH in Hr as (t1 & a & t2 & H1 & H2 & ->).
    exists ((c, r) :: t1), a, t2. repeat split; [by constructor|done].
Qed.

(** Peel the first call off a run that reaches a result. *)
Ltac first_call H r :=
  let t := fresh "t" in
  apply returns_Do_inv in H as (r & t & -> & H); cbn beta iota in H.

(** Build, call by call, a run of a closed program. *)
Ltac play := repeat (first [apply runs_nil | apply runs_cons]; cbn).

(** ** The cEOS bootstrap protocol *)

Section CeosProperties.
Import Ceos.
Context `{GoLib}.

(** C1. When [PostDeploy] returns nil for a cEOS node, the calls it
    made are, in this order: the debug line, the rendering of the
    configuration to the node's startup-config path, the restart
    notice, the stop of the node's container, the removal of the
    namespace symlink, the start of the container, the resolution of the
    namespace path, and the re-creation of the symlink to the path the
    runtime answered.  Every step answered without error, the node
    keeps that path, and exactly one stop and one start were issued for
    the node's container ID. *)
Theorem PostDeploy_sequence cfg t cfg' :
  returns (PostDeploy cfg) t (cfg', None) →
  ∃ nspath,
    calls t = debug_line cfg :: protocol cfg nspath ∧
    (∀ r, (GetNSPath (ContainerID cfg), r) ∈ t → r_val r = nspath) ∧
    (∀ c r, (c, r) ∈ t → is_log c = false → r_err r = None) ∧
    cfg' = set_NSPath cfg nspath ∧
    length (List.filter (is_stop (ContainerID cfg)) (calls t)) = 1%nat ∧
    length (List.filter (is_start (ContainerID cfg)) (calls t)) = 1%nat.
Proof.
  intros Hr. unfold PostDeploy, ceosPostDeploy in Hr.
  first_call Hr r0.
  first_call Hr g. destruct (r_err g) eqn:Hg.
  { apply runs_Ret_inv in Hr as [_ [=]]. }
  first_call Hr r1.
  first_call Hr s. destruct (r_err s) eqn:Hs.
  { apply runs_Ret_inv in Hr as [_ [=]]. }
  first_call Hr d. destruct (r_err d) eqn:Hd.
  { apply runs_Ret_inv in Hr as [_ [=]]. }
  first_call Hr st. destruct (r_err st) eqn:Hst.
  { apply runs_Ret_inv in Hr as [_ [=]]. }
  first_call Hr ns. destruct (r_err ns) eqn:Hns.
  { apply runs_Ret_inv in Hr as [_ [=]]. }
  first_call Hr l.
  apply runs_Ret_inv in Hr as [-> [= -> Hl]].
  exists (r_val ns). split; [reflexivity|].
  split; [|split; [|split; [reflexivity|]]].
  - intros r Hin. rewrite !elem_of_cons in Hin.
    destruct Hin as [[=]|[[=]|[[=]|[[=]|[[=]|[[=]|[[=]|[[=]|Hin]]]]]]]];
      [by subst|by apply elem_of_nil in Hin].
  - intros c r Hin Hlog. rewrite !elem_of_cons in Hin.
    destruct Hin as [[= -> ->]|[[= -> ->]|[[= -> ->]|[[= -> ->]|[[= -> ->]|
      [[= -> ->]|[[= -> ->]|[[= -> ->]|Hin]]]]]]]]; try done.
    by apply elem_of_nil in Hin.
  - cbn. rewrite String.eqb_refl. done.
Qed.

(** C8. For a management MAC of six bytes, [PreDeploy] writes to the
    system-MAC file the address whose first five bytes are those of the
    management MAC and whose last byte is the management MAC's last byte
    plus one modulo 256 (so 0xFF wraps to 0x00), and returns nil. *)
Theorem PreDeploy_system_mac node configName labCADir labCARoot pre b :
  ParseMAC (MacAddress node) = inl (pre ++ [b]) →
  length pre = 5%nat →
  Forall is_byte pre → is_byte b →
  let sysmac := pre ++ [((b + 1) mod 256)%Z] in
  (∀ t out,
     returns (PreDeploy node configName labCADir labCARoot) t out →
     calls t =
       [ CreateDirectory (LabDir node) 511;
         CreateDirectory (path_Join [LabDir node; "flash"]) 511;
         CreateFile (path_Join [LabDir node; "flash"; "system_mac_address"])
           (HardwareAddr_String sysmac) ] ∧
     out = Returned
             (set_ResConfig node
                (path_Join [LabDir node; "flash"; "startup-config"]), None)) ∧
  (∀ env, ∃ t, returns (PreDeploy node configName labCADir labCARoot) t
                 (interp env (PreDeploy node configName labCADir labCARoot) []).1) ∧
  length sysmac = 6%nat ∧ take 5 sysmac = take 5 (pre ++ [b]) ∧
  Forall is_byte sysmac ∧
  (b = 255 → last sysmac = Some 0)%Z ∧
  (b < 255 → last sysmac = Some (b + 1))%Z.
Proof.
  intros Hmac Hlen Hpre Hb sysmac. split; [|split; [|repeat split]].
  - intros t out Hr. unfold PreDeploy, createCEOSFiles in Hr.
    first_call Hr r0. first_call Hr r1.
    cbn [MacAddress set_ResConfig] in Hr. rewrite Hmac in Hr.
    rewrite lookup_app_r, Hlen in Hr by lia. cbn [Nat.sub lookup list_lookup] in Hr.
    rewrite insert_app_r_alt, Hlen in Hr by lia. cbn [Nat.sub] in Hr.
    first_call Hr r2. apply runs_Ret_inv in Hr as [-> [= ->]].
    done.
  - intros env.
    destruct (interp_returns env (PreDeploy node configName labCADir labCARoot) [])
      as (t & _ & Hr). by exists t.
  - unfold sysmac. rewrite length_app. simpl. lia.
  - unfold sysmac. by rewrite !take_app_le by lia.
  - unfold sysmac. apply Forall_app. split; [done|].
    repeat constructor; unfold is_byte in *; apply Z.mod_pos_bound; lia.
  - intros ->. unfold sysmac. by rewrite last_snoc.
  - intros Hlt. unfold sysmac. rewrite last_snoc.
    unfold is_byte in Hb. by rewrite Z.mod_small by lia.
Qed.

End CeosProperties.

Section CeosExamples.
Import Ceos Sample.

Lemma PostDeploy_sequence_witness :
  ∃ nspath,
    calls (interp all_fine (PostDeploy ceos1) []).2
      = debug_line ceos1 :: protocol ceos1 nspath ∧
    (interp all_fine (PostDeploy ceos1) []).1.1 = set_NSPath ceos1 nspath ∧
    nspath = "/proc/4242/ns/net".
Proof.
  destruct (PostDeploy_sequence ceos1
              (interp all_fine (PostDeploy ceos1) []).2
              (interp all_fine (PostDeploy ceos1) []).1.1)
    as (nspath & Hcalls & Hns & _ & Hcfg & _).
  { cbn. play. }
  exists nspath. split; [exact Hcalls|]. split; [exact Hcfg|].
  symmetry. apply (Hns (ok_val "/proc/4242/ns/net")).
  cbn. rewrite !elem_of_cons. do 6 right. left. reflexivity.
Defined.

Lemma PreDeploy_system_mac_witness :
  calls (interp all_fine (PreDeploy ceos1 "" "" "") []).2 =
    [ CreateDirectory "/lab/ceos1" 511;
      CreateDirectory "/lab/ceos1/flash" 511;
      CreateFile "/lab/ceos1/flash/system_mac_address"
        "00:1c:73:aa:bb:00" ].
Proof.
  destruct (PreDeploy_system_mac ceos1 "" "" "" [0; 28; 115; 170; 187]%Z 255%Z)
    as (Hcalls & _); [reflexivity|reflexivity| |unfold is_byte; lia|].
  { repeat constructor; unfold is_byte; lia. }
  destruct (Hcalls (interp all_fine (PreDeploy ceos1 "" "" "") []).2
              (interp all_fine (PreDeploy ceos1 "" "" "") []).1) as [Hc _].
  { cbn. play. }
  exact Hc.
Defined.

End CeosExamples.

(** ** The command line built by [Init] *)

Section InitProperties.
Import Ceos.
Context `{GoLib}.

Lemma foldl_setenv acc visited :
  foldl (λ sb kv, sb +:+ setenv kv) acc visited
  = acc +:+ concat_all (setenv <$> visited).
Proof.
  revert acc. induction visited as [|kv visited IH]; intros acc; simpl.
  - by rewrite append_nil_r.
  - by rewrite IH, append_assoc.
Qed.

Lemma buildCmd_segments visited :
  buildCmd visited = "/sbin/init " +:+ concat_all (setenv <$> visited).
Proof. apply foldl_setenv. Qed.

Lemma concat_all_length_perm (l1 l2 : list string) :
  l1 ≡ₚ l2 →
  String.length (concat_all l1) = String.length (concat_all l2).
Proof.
  induction 1 as [|x l1 l2 _ IH|x y l|l1 l2 l3 _ IH1 _ IH2]; simpl.
  - done.
  - by rewrite !length_append, IH.
  - rewrite !length_append. lia.
  - congruence.
Qed.

Lemma Init_Cmd cfg opts visited mac :
  Cmd (Init cfg opts visited mac).1 = buildCmd visited.
Proof. reflexivity. Qed.

(** C2, as the code has it. [Init] writes "/sbin/init " followed by one
    "systemd.setenv=K=V " segment per entry of the merged environment,
    in the order in which the loop over the map meets the entries.  Two
    invocations on the same merged environment therefore produce command
    lines made of the same segments, possibly in a different order (and
    of the same length); the command lines are identical when the two
    loops meet the entries in the same order. *)
Theorem Init_cmd_same_segments cfg1 opts1 cfg2 opts2 r1 r2 :
  mergedEnv cfg1 opts1 = mergedEnv cfg2 opts2 →
  Init_returns cfg1 opts1 r1 →
  Init_returns cfg2 opts2 r2 →
  ∃ visited1 visited2,
    visited1 ≡ₚ map_to_list (mergedEnv cfg1 opts1) ∧
    visited2 ≡ₚ visited1 ∧
    Cmd r1 = "/sbin/init " +:+ concat_all (setenv <$> visited1) ∧
    Cmd r2 = "/sbin/init " +:+ concat_all (setenv <$> visited2) ∧
    String.length (Cmd r1) = String.length (Cmd r2) ∧
    (visited1 = visited2 → Cmd r1 = Cmd r2).
Proof.
  intros Henv (v1 & mac1 & Hv1 & Hr1) (v2 & mac2 & Hv2 & Hr2).
  unfold range_order in *.
  assert (Cmd r1 = buildCmd v1) as Hc1.
  { by rewrite <-(Init_Cmd cfg1 opts1 v1 mac1), Hr1. }
  assert (Cmd r2 = buildCmd v2) as Hc2.
  { by rewrite <-(Init_Cmd cfg2 opts2 v2 mac2), Hr2. }
  exists v1, v2. rewrite Hc1, Hc2, !buildCmd_segments.
  assert (v2 ≡ₚ v1) as Hperm by (by rewrite Hv1, Hv2, Henv).
  repeat split; try done.
  - rewrite !length_append. f_equal.
    apply concat_all_length_perm. by rewrite Hperm.
  - by intros ->.
Qed.

End InitProperties.

Section InitExamples.
Import Ceos Sample.

(** C2, as stated, fails: [Init] on one and the same configuration (so
    on one and the same merged environment) can return two different
    command lines, one per order in which the map is visited. *)
Lemma Init_cmd_depends_on_order :
  ∃ r1 r2,
    Init_returns ceos1 [] r1 ∧ Init_returns ceos1 [] r2 ∧
    Cmd r1 ≠ Cmd r2.
Proof.
  exists (Init ceos1 [] (map_to_list (mergedEnv ceos1 [])) "00:1c:73:aa:bb:ff").1,
         (Init ceos1 [] (reverse (map_to_list (mergedEnv ceos1 []))) "00:1c:73:aa:bb:ff").1.
  split; [|split].
  - eexists _, _. split; [|reflexivity]. unfold range_order. reflexivity.
  - eexists _, _. split; [|reflexivity]. unfold range_order.
    apply reverse_Permutation.
  - vm_compute. discriminate.
Qed.

Lemma Init_cmd_same_segments_witness :
  let r1 := (Init ceos1 [] (map_to_list (mergedEnv ceos1 [])) "00:1c:73:aa:bb:ff").1 in
  let r2 := (Init ceos1 [] (reverse (map_to_list (mergedEnv ceos1 []))) "00:1c:73:00:00:01").1 in
  String.length (Cmd r1) = String.length (Cmd r2).
Proof.
  intros r1 r2.
  destruct (Init_cmd_same_segments ceos1 [] ceos1 [] r1 r2)
    as (v1 & v2 & _ & _ & _ & _ & Hlen & _).
  - reflexivity.
  - eexists _, _. split; [|reflexivity]. unfold range_order. reflexivity.
  - eexists _, _. split; [|reflexivity]. unfold range_order.
    apply reverse_Permutation.
  - exact Hlen.
Defined.

End InitExamples.

(** ** The post-deploy fan-out *)

Section FanoutProperties.
Import Fanout.
Variable ExecPostDeployTasks : NodeBase → N → prog (NodeBase * error).
Local Abbreviation goroutine := (goroutine ExecPostDeployTasks).
Local Abbreviation spawn := (spawn ExecPostDeployTasks).
Local Abbreviation on_track := (on_track ExecPostDeployTasks).

Lemma thread_trace_snoc i h j e :
  thread_trace i (h ++ [(j, e)])
  = thread_trace i h ++ (if decide (j = i) then [e] else []).
Proof.
  unfold thread_trace. rewrite omap_app. f_equal. simpl.
  by destruct (decide (j = i)).
Qed.

Lemma on_track_spawn lw nodes : on_track lw nodes (spawn lw nodes).
Proof.
  split; simpl; [by rewrite length_fmap|].
  intros i node Hi. exists (goroutine lw node).
  split; [by rewrite list_lookup_fmap, Hi|constructor].
Qed.

Lemma on_track_step lw nodes s s' :
  on_track lw nodes s → step s s' → on_track lw nodes s'.
Proof.
  intros [Hlen Hinv] [j c k r Hj]. unfold advance. rewrite Hj.
  split; simpl; [by rewrite length_insert|].
  intros i node Hi. destruct (Hinv i node Hi) as (p & Hp & Hruns).
  rewrite thread_trace_snoc.
  destruct (decide (j = i)) as [->|Hne].
  - exists (k r). rewrite list_lookup_insert_eq by by eapply lookup_lt_Some.
    split; [done|]. apply runs_snoc. congruence.
  - exists p. rewrite list_lookup_insert_ne by done.
    by rewrite app_nil_r.
Qed.

Lemma on_track_steps lw nodes s s' :
  on_track lw nodes s → steps s s' → on_track lw nodes s'.
Proof. induction 2; eauto using on_track_step. Qed.

(** What the executable scheduler does is an execution of the pool. *)
Lemma schedule_steps env sched s : steps s (schedule env sched s).
Proof.
  revert s. induction sched as [|i sched IH]; intros s; simpl; [constructor|].
  destruct (threads s !! i) as [[a|c k]|] eqn:Hi; try apply IH.
  eapply steps_next; [|apply IH]. by econstructor.
Qed.

(** A program makes finitely many calls, whatever the answers. *)
Lemma prog_terminates {A} (p : prog A) :
  Acc (λ q' q, ∃ c k r, q = Do c k ∧ q' = k r) p.
Proof.
  induction p as [a|c k IH]; constructor.
  - intros q' (c & k & r & [=] & _).
  - intros q' (c' & k' & r & [= -> ->] & ->). apply IH.
Qed.

Lemma threads_terminate {A} (l : list (prog A)) : Acc threads_next l.
Proof.
  induction l as [|p l IHl].
  { constructor. intros l' (i & q & q' & Hi & _). by destruct i. }
  pose proof (prog_terminates p) as Hp. revert l IHl.
  induction Hp as [p _ IHp]. intros l Hl.
  induction Hl as [l Hl IHl].
  constructor. intros l' (i & q & q' & Hi & Hq & ->).
  destruct i as [|i]; simpl in *.
  - simplify_eq. apply IHp; [exact Hq|]. by constructor.
  - apply IHl. by exists i, q, q'.
Qed.

Lemma pool_terminates (s : pool) : Acc (λ s' s, step s s') s.
Proof.
  remember (threads s) as l eqn:Hl. revert s Hl.
  induction (threads_terminate l) as [l _ IH]. intros s ->.
  constructor. intros s' [i c k r Hi].
  apply (IH (threads (advance i r s))); [|done].
  unfold advance. rewrite Hi. simpl.
  exists i, (Do c k), (k r). split; [done|]. split; [|done].
  by exists c, k, r.
Qed.

Lemma stuck_is_joined (s : pool) : (∀ s', ¬ step s s') → joined s.
Proof.
  intros Hstuck. apply Forall_lookup. intros i p Hi.
  destruct p as [a|c k]; [done|].
  exfalso. apply (Hstuck (advance i ok s)). by econstructor.
Qed.

(** From any state the goroutines can all be run to their end. *)
Lemma pool_can_join (s : pool) : ∃ s', steps s s' ∧ joined s'.
Proof.
  induction (pool_terminates s) as [s _ IH].
  destruct (decide (joined s)) as [Hj|Hj].
  { exists s. split; [constructor|done]. }
  apply not_Forall_Exists in Hj; [|apply _].
  apply Exists_exists in Hj as (p & Hp & Hfin).
  apply list_elem_of_lookup in Hp as [i Hi].
  destruct p as [a|c k]; [by destruct Hfin|].
  destruct (IH (advance i ok s)) as (s' & Hsteps & Hjoined).
  { by econstructor. }
  exists s'. split; [|done].
  eapply steps_next; [|exact Hsteps]. by econstructor.
Qed.

(** Once the goroutines have joined, each has run to its result along its
    own calls. *)
Lemma joined_returns lw nodes s i node :
  steps (spawn lw nodes) s → joined s → nodes !! i = Some node →
  ∃ node', returns (goroutine lw node) (thread_trace i (history s)) node'.
Proof.
  intros Hsteps Hj Hi.
  destruct (on_track_steps lw nodes _ s (on_track_spawn lw nodes) Hsteps)
    as [_ Htrack].
  destruct (Htrack i node Hi) as (p & Hp & Hruns).
  eapply Forall_lookup_1 in Hj; [|exact Hp].
  destruct p as [node'|c k]; [|done]. by exists node'.
Qed.

Lemma goroutine_returns lw node t node' :
  returns (goroutine lw node) t node' →
  ∃ t1 err,
    returns (ExecPostDeployTasks node lw) t1 (node', err) ∧
    match err with
    | Some e => ∃ r, t = t1 ++ [(failure_line node' e, r)]
    | None => t = t1
    end.
Proof.
  intros Hr. apply returns_bind_inv in Hr as (t1 & [n1 err] & t2 & H1 & H2 & ->).
  destruct err as [e|].
  - first_call H2 r. apply runs_Ret_inv in H2 as [-> [= ->]].
    exists t1, (Some e). split; [done|]. by exists r.
  - apply runs_Ret_inv in H2 as [-> [= ->]].
    exists t1, None. by rewrite app_nil_r.
Qed.

Lemma always_ret {A} (P : A → Prop) a : P a → always P (Ret a).
Proof. intros HP t a' [_ [= ->]]%runs_Ret_inv. done. Qed.

Lemma always_bind {A B} (P : B → Prop) (m : prog A) (f : A → prog B) :
  (∀ a, always P (f a)) → always P (m ≫= f).
Proof.
  intros Hf t b (t1 & a & t2 & _ & H2 & _)%returns_bind_inv.
  by eapply Hf.
Qed.

Lemma afterWait_returns_nil cs net lw :
  always (λ e, e = None) (afterWait cs net lw).
Proof.
  unfold afterWait. repeat (apply always_bind; intros ?).
  by apply always_ret.
Qed.

End FanoutProperties.

(** ** A post-deploy failure stays with its node *)

(** One level of a run that ends with the call [c] answered by [r]: either
    this is the call just made, or the run goes on behind it. *)
Ltac behind Hr r0 :=
  let pre' := fresh "pre" in
  apply runs_Do_snoc_inv in Hr as [(-> & -> & ->)|(r0 & pre' & -> & Hr)];
  cbn beta iota in *.

Section FailSoft.
Import Ceos Fanout.
Context `{GoLib}.

Lemma PostDeploy_stops_at_failure cfg pre c r e rest :
  runs (PostDeploy cfg) (pre ++ [(c, r)]) rest →
  is_log c = false →
  r_err r = Some e →
  ∃ cfg', rest = Ret (cfg', Some e).
Proof.
  intros Hr Hlog He. unfold PostDeploy, ceosPostDeploy in Hr.
  behind Hr r0; [discriminate Hlog|].
  behind Hr g; [rewrite He; eauto|].
  destruct (r_err g); [by apply runs_Ret_snoc_inv in Hr|].
  behind Hr r1; [discriminate Hlog|].
  behind Hr s; [rewrite He; eauto|].
  destruct (r_err s); [by apply runs_Ret_snoc_inv in Hr|].
  behind Hr d; [rewrite He; eauto|].
  destruct (r_err d); [by apply runs_Ret_snoc_inv in Hr|].
  behind Hr st; [rewrite He; eauto|].
  destruct (r_err st); [by apply runs_Ret_snoc_inv in Hr|].
  behind Hr ns; [rewrite He; eauto|].
  destruct (r_err ns); [by apply runs_Ret_snoc_inv in Hr|].
  behind Hr l; [rewrite He; eauto|].
  by apply runs_Ret_snoc_inv in Hr.
Qed.

(** C5. (1) As soon as a step of the bootstrap protocol answers with an
    error, [PostDeploy] has nothing left to do: it has returned that
    error, and no later step is called.  In the fan-out, whatever the
    per-node task is: (2) each goroutine stays where its own calls and
    answers take it, whatever happens to the other goroutines; (3) the
    fan-out cannot go on for ever, it can always be run until every
    goroutine has finished, and it has reached that point when no
    goroutine can move, so [wg.Wait()] returns; (4) at that point every
    node's goroutine has run to its result; (5) a goroutine whose task
    returned an error has logged it as its last call; (6) what follows
    [wg.Wait()] runs to the end of [RunE] and returns nil. *)
Theorem PostDeploy_failure_contained :
  (∀ cfg pre c r e rest,
     runs (PostDeploy cfg) (pre ++ [(c, r)]) rest →
     is_log c = false → r_err r = Some e →
     ∃ cfg', rest = Ret (cfg', Some e)) ∧
  ∀ (ExecPostDeployTasks : NodeBase → N → prog (NodeBase * error))
    (lw : N) (nodes : list NodeBase),
    (∀ s i node,
       steps (spawn ExecPostDeployTasks lw nodes) s →
       nodes !! i = Some node →
       ∃ p, threads s !! i = Some p ∧
            runs (goroutine ExecPostDeployTasks lw node)
              (thread_trace i (history s)) p) ∧
    ((∀ s, Acc (λ s' s, step s s') s) ∧
     (∀ s, ∃ s', steps s s' ∧ joined s') ∧
     (∀ s, (∀ s', ¬ step s s') → joined s)) ∧
    (∀ s i node,
       steps (spawn ExecPostDeployTasks lw nodes) s → joined s →
       nodes !! i = Some node →
       ∃ node', returns (goroutine ExecPostDeployTasks lw node)
                  (thread_trace i (history s)) node') ∧
    (∀ node t node',
       returns (goroutine ExecPostDeployTasks lw node) t node' →
       ∃ t1 err,
         returns (ExecPostDeployTasks node lw) t1 (node', err) ∧
         match err with
         | Some e => ∃ r, t = t1 ++ [(failure_line node' e, r)]
         | None => t = t1
         end) ∧
    (∀ containers mgmtNetwork env tr,
       (interp env (afterWait containers mgmtNetwork lw) tr).1 = None).
Proof.
  split; [exact PostDeploy_stops_at_failure|].
  intros E lw nodes. split; [|split; [|split; [|split]]].
  - intros s i node Hsteps Hi.
    by apply (on_track_steps E lw nodes _ s (on_track_spawn E lw nodes) Hsteps).
  - split; [apply pool_terminates|].
    split; [apply pool_can_join|apply stuck_is_joined].
  - apply joined_returns.
  - apply goroutine_returns.
  - intros cs net env tr.
    destruct (interp_returns env (afterWait cs net lw) tr) as (t & _ & Hr).
    by apply afterWait_returns_nil in Hr.
Qed.

End FailSoft.

Section FailSoftExample.
Import Ceos Fanout Sample.

(** Two cEOS nodes; stopping the container of the first one fails, and
    the scheduler alternates between the two goroutines. *)
Lemma PostDeploy_failure_contained_witness :
  let a := nodeBase "a" "ida" in
  let b := nodeBase "b" "idb" in
  let s := schedule (stop_fails "ida")
             [0; 1; 0; 1; 0; 1; 0; 1; 0; 1; 1; 1; 1; 1; 1]%nat
             (spawn execCeos 2 [a; b]) in
  joined s ∧
  calls (thread_trace 0 (history s))
    = [ debug_line (nodeConfigOf a);
        GenerateConfig (nodeConfigOf a) (ResConfig (nodeConfigOf a)) cfgTemplate;
        Log LInfo "Restarting 'a' node";
        StopContainer "ida" 1;
        failure_line a "no such container" ] ∧
  calls (thread_trace 1 (history s))
    = debug_line (nodeConfigOf b)
        :: protocol (nodeConfigOf b) "/proc/4242/ns/net" ∧
  ∃ p, threads s !! 1%nat = Some p ∧
       runs (goroutine execCeos 2 b) (thread_trace 1 (history s)) p.
Proof.
  intros a b s.
  split; [vm_compute; repeat constructor|].
  split; [reflexivity|]. split; [reflexivity|].
  destruct PostDeploy_failure_contained as [_ Hfan].
  destruct (Hfan execCeos 2%N [a; b]) as (Htrack & _).
  apply Htrack; [apply schedule_steps|reflexivity].
Defined.

(** Each of the six steps of the protocol can be the one that fails; the
    calls made are then the steps up to and including it, and its error
    is what [PostDeploy] returns. *)
Example PostDeploy_each_step_can_fail :
  Forall (λ '(sel, n),
            let run := interp (fails_when sel) (PostDeploy ceos1) [] in
            run.1.2 = Some "boom" ∧
            calls run.2
              = debug_line ceos1 :: take n (protocol ceos1 "/proc/4242/ns/net"))
    [ ((λ c, match c with GenerateConfig _ _ _ => true | _ => false end), 1%nat);
      (is_stop "c0ffee", 3%nat);
      ((λ c, match c with DeleteNetnsSymlink _ => true | _ => false end), 4%nat);
      (is_start "c0ffee", 5%nat);
      ((λ c, match c with GetNSPath _ => true | _ => false end), 6%nat);
      ((λ c, match c with LinkContainerNS _ _ => true | _ => false end), 7%nat) ].
Proof. repeat constructor. Qed.

End FailSoftExample.

(** * Further properties *)

(** ** Hosts generation, continued *)

Section MoreHosts.
Import Hosts HostsFile HostsLines Sample.

Lemma append_eq_nil (a b : string) : a +:+ b = "" ↔ a = "" ∧ b = "".
Proof.
  destruct a as [|x a].
  - change (b = "" ↔ "" = "" ∧ b = "").
    split; [by intros ->|by intros [_ ->]].
  - rewrite append_cons. split; [discriminate|by intros [[=] _]].
Qed.

Lemma entry_not_nil addr name0 : entry addr name0 ≠ "".
Proof.
  unfold entry. intros Hnil.
  apply append_eq_nil in Hnil as [_ Hnil].
  apply append_eq_nil in Hnil as [Hnil _]. discriminate Hnil.
Qed.

Lemma entriesOf_nil_iff c : entriesOf c = "" ↔ contributes c = false.
Proof.
  unfold entriesOf, contributes.
  destruct (Names c) as [|name0 ?]; [done|].
  destruct (Set_ (NetworkSettings c)); [|done]. simpl.
  destruct (String.eqb (IPv4addr _) ""), (String.eqb (IPv6addr _) ""); simpl;
    rewrite ?append_eq_nil; split; intros Hx; try done;
    exfalso; destruct Hx as [H1 H2];
    first [by eapply entry_not_nil in H1 | by eapply entry_not_nil in H2].
Qed.

(** X1. The blob of a concatenation of container lists is the
    concatenation of the blobs, whatever bridge names are given; a
    container that has no name, or unpopulated network settings, or two
    empty addresses can be removed from the list without changing the
    blob. *)
Theorem hostsEntries_compose :
  (∀ cs1 cs2 b b1 b2,
     hostsEntries (cs1 ++ cs2) b
     = hostsEntries cs1 b1 +:+ hostsEntries cs2 b2) ∧
  (∀ cs1 c cs2 b,
     contributes c = false →
     hostsEntries (cs1 ++ c :: cs2) b = hostsEntries (cs1 ++ cs2) b).
Proof.
  assert (∀ cs b b', hostsEntries cs b = hostsEntries cs b') as Hbridge.
  { intros cs b b'. induction cs as [|c cs IH]; simpl; [done|]. by rewrite IH. }
  assert (∀ cs1 cs2 b, hostsEntries (cs1 ++ cs2) b
            = hostsEntries cs1 b +:+ hostsEntries cs2 b) as Happ.
  { intros cs1 cs2 b. induction cs1 as [|c cs1 IH]; simpl; [done|].
    by rewrite IH, append_assoc. }
  split.
  - intros cs1 cs2 b b1 b2.
    by rewrite Happ, (Hbridge cs1 b b1), (Hbridge cs2 b b2).
  - intros cs1 c cs2 b Hc. rewrite !Happ. simpl.
    apply entriesOf_nil_iff in Hc. by rewrite Hc.
Qed.

Lemma hostsEntries_compose_witness :
  hostsEntries (container "/r0" "id0" "r0" false "10.0.0.1" ""
                  :: two_containers true true) "clab"
  = hostsEntries (two_containers true true) "other".
Proof.
  destruct hostsEntries_compose as [Happ Hdrop].
  etrans.
  - apply (Hdrop [] (container "/r0" "id0" "r0" false "10.0.0.1" "")
             (two_containers true true) "clab"). reflexivity.
  - apply (Happ [] (two_containers true true) "clab" "" "other").
Defined.

Lemma hostsEntries_nil_Forall cs bridge :
  hostsEntries cs bridge = "" ↔ Forall (λ c, contributes c = false) cs.
Proof.
  induction cs as [|c cs IH]; simpl.
  - split; [constructor|done].
  - rewrite append_eq_nil, Forall_cons, IH, entriesOf_nil_iff. done.
Qed.

(** X2. The blob is empty exactly when no container has at once a name,
    populated network settings and a non-empty address. *)
Theorem hostsEntries_empty_iff cs bridge :
  hostsEntries cs bridge = "" ↔ Forall (λ c, contributes c = false) cs.
Proof. apply hostsEntries_nil_Forall. Qed.

Lemma hostsEntries_empty_iff_witness :
  hostsEntries [container "/r1" "id1" "r1" true "" ""] "clab" = "".
Proof.
  apply (hostsEntries_empty_iff [container "/r1" "id1" "r1" true "" ""] "clab").
  repeat constructor.
Defined.

Lemma length_zero_nil (a : string) : String.length a = 0%nat → a = "".
Proof. by destruct a. Qed.

(** X3. With a bridge name and at least one contributing container,
    every run of [createHostsFile] opens /etc/hosts for appending first.
    If that fails its error is returned and nothing else is called.
    Otherwise a line feed is written, then (if that succeeded) the blob of
    [hostsEntries]; the file is closed exactly once, last, whatever the
    writes answered, and the answer of the close is ignored: the error
    returned is that of the first failed write, or nil. *)
Theorem createHostsFile_runs cs bridge t e :
  bridge ≠ "" →
  Exists (λ c, contributes c = true) cs →
  returns (createHostsFile cs bridge) t e →
  let opening := OpenFile etc_hosts [O_APPEND; O_WRONLY] ModeAppend in
  let data := hostsEntries cs bridge in
  (∃ o err, t = [(opening, o)] ∧ r_err o = Some err ∧ e = Some err) ∨
  (∃ o w c err,
     t = [(opening, o); (FileWriteString etc_hosts LF, w);
          (FileClose etc_hosts, c)] ∧
     r_err o = None ∧ r_err w = Some err ∧ e = Some err) ∨
  (∃ o w d c,
     t = [(opening, o); (FileWriteString etc_hosts LF, w);
          (FileWrite etc_hosts data, d); (FileClose etc_hosts, c)] ∧
     r_err o = None ∧ r_err w = None ∧ e = r_err d).
Proof.
  intros Hb Hsome Hr opening data. unfold createHostsFile in Hr.
  destruct (String.eqb_spec bridge "") as [|_]; [done|].
  destruct (Nat.eqb_spec (len (hostsEntries cs bridge)) 0) as [Hz|_].
  { apply length_zero_nil, hostsEntries_nil_Forall in Hz.
    apply Exists_exists in Hsome as (c & Hc & Hcontr).
    rewrite Forall_forall in Hz. specialize (Hz c Hc). congruence. }
  first_call Hr o. destruct (r_err o) as [err|] eqn:Ho.
  { apply runs_Ret_inv in Hr as [-> [= ->]]. left. eauto. }
  first_call Hr w. destruct (r_err w) as [err|] eqn:Hw.
  { first_call Hr c. apply runs_Ret_inv in Hr as [-> [= ->]].
    right. left. by exists o, w, c, err. }
  first_call Hr d. right. right.
  destruct (r_err d) as [err|] eqn:Hd;
    first_call Hr c; apply runs_Ret_inv in Hr as [-> [= ->]];
    by exists o, w, d, c.
Qed.

Lemma createHostsFile_runs_witness :
  ∃ o w d c,
    (interp all_fine (createHostsFile (two_containers true true) "clab") []).2
    = [ (OpenFile etc_hosts [O_APPEND; O_WRONLY] ModeAppend, o);
        (FileWriteString etc_hosts LF, w);
        (FileWrite etc_hosts (hostsEntries (two_containers true true) "clab"), d);
        (FileClose etc_hosts, c) ].
Proof.
  destruct (createHostsFile_runs (two_containers true true) "clab"
              (interp all_fine (createHostsFile (two_containers true true) "clab") []).2
              (interp all_fine (createHostsFile (two_containers true true) "clab") []).1)
    as [(o & err & [=] & _)|[(o & w & c & err & [=] & _)|(o & w & d & c & Ht & _)]].
  - discriminate.
  - apply Exists_cons_hd. reflexivity.
  - cbn. play.
  - by exists o, w, d, c.
Defined.

Lemma mem_byte_append x (a b : string) :
  mem_byte x (a +:+ b) = mem_byte x a || mem_byte x b.
Proof.
  induction a as [|y a IH]; [done|].
  rewrite append_cons. cbn [mem_byte]. rewrite IH. by destruct (Ascii.eqb x y).
Qed.

Lemma no_LF_TrimLeft s cutset : no_LF s → no_LF (TrimLeft s cutset).
Proof.
  unfold no_LF. induction s as [|x s IH]; [done|].
  cbn [TrimLeft]. destruct (mem_byte x cutset); [|done].
  cbn [mem_byte]. destruct (Ascii.eqb "010" x); [done|]. exact IH.
Qed.

Lemma lines_from_line acc s rest :
  no_LF s →
  lines_from acc (s +:+ LF +:+ rest) = (acc +:+ s) :: lines_from "" rest.
Proof.
  unfold no_LF. revert acc. induction s as [|x s IH]; intros acc Hs.
  - by rewrite append_nil_r.
  - cbn [mem_byte] in Hs. rewrite append_cons. cbn [lines_from].
    rewrite Ascii.eqb_sym. destruct (Ascii.eqb "010" x); [done|].
    rewrite IH by done. rewrite append_assoc. reflexivity.
Qed.

Lemma lines_entry addr name0 rest :
  no_LF addr → no_LF name0 →
  lines (entry addr name0 +:+ rest)
  = (addr +:+ TAB +:+ TrimLeft name0 "/") :: lines rest.
Proof.
  intros Ha Hn. unfold lines, entry.
  replace ((addr +:+ TAB +:+ TrimLeft name0 "/" +:+ LF) +:+ rest)
    with ((addr +:+ TAB +:+ TrimLeft name0 "/") +:+ LF +:+ rest)
    by (by rewrite !append_assoc).
  rewrite lines_from_line; [done|].
  unfold no_LF. rewrite !mem_byte_append, Ha. simpl.
  by apply no_LF_TrimLeft.
Qed.

Lemma lines_entriesOf c rest :
  one_line_fields c →
  lines (entriesOf c +:+ rest) = linesOf c ++ lines rest.
Proof.
  intros (H4 & H6 & Hn). unfold entriesOf, linesOf.
  destruct (Names c) as [|name0 ?]; [done|].
  specialize (Hn name0 eq_refl).
  destruct (Set_ (NetworkSettings c)); [|done].
  destruct (String.eqb (IPv4addr _) ""), (String.eqb (IPv6addr _) "").
  - reflexivity.
  - change ("" +:+ ?x) with x. by rewrite lines_entry.
  - by rewrite append_nil_r, lines_entry.
  - by rewrite append_assoc, !lines_entry.
Qed.

(** X4. Reading the blob back line by line gives, container after
    container, the IPv4 line (if the address is not empty) then the IPv6
    line (if not empty) of each named container with populated settings,
    provided no address and no first name holds a line feed. *)
Theorem lines_hostsEntries cs bridge :
  Forall one_line_fields cs →
  lines (hostsEntries cs bridge) = flat_map linesOf cs.
Proof.
  induction 1 as [|c cs Hc _ IH]; [done|].
  simpl. by rewrite lines_entriesOf, IH.
Qed.

Lemma lines_hostsEntries_witness :
  lines (hostsEntries (two_containers true true) "clab")
  = flat_map linesOf (two_containers true true).
Proof.
  apply (lines_hostsEntries (two_containers true true) "clab").
  repeat constructor; intros ? [= <-]; reflexivity.
Defined.




End MoreHosts.

(** ** Enrichment, continued *)

Section MoreEnrich.
Import Enrich.

Lemma upd_names k c n :
  nb_ShortName (upd k c n) = nb_ShortName n ∧
  nb_NetworkMode (upd k c n) = nb_NetworkMode n.
Proof. unfold upd, writeNode. by repeat case_match. Qed.

Lemma upds_names k cs n :
  nb_ShortName (upds k cs n) = nb_ShortName n ∧
  nb_NetworkMode (upds k cs n) = nb_NetworkMode n.
Proof.
  unfold upds. revert n. induction cs as [|c cs IH]; intros n; [done|].
  simpl. destruct (IH (upd k c n)) as [-> ->]. apply upd_names.
Qed.

Lemma upds_isHost k cs n : isHost (upds k cs n) = isHost n.
Proof. unfold isHost. by destruct (upds_names k cs n) as [_ ->]. Qed.

Lemma upds_app k cs1 cs2 n : upds k (cs1 ++ cs2) n = upds k cs2 (upds k cs1 n).
Proof. unfold upds. by rewrite foldl_app. Qed.

Lemma upds_host k cs n : isHost n = true → upds k cs n = n.
Proof.
  unfold upds. induction cs as [|c cs IH]; intros Hh; [done|].
  simpl. unfold upd at 2. rewrite Hh. destruct (decide (label c = k)); auto.
Qed.

Lemma upds_no_match k cs n : Forall (λ c, label c ≠ k) cs → upds k cs n = n.
Proof.
  unfold upds. induction 1 as [|c cs Hc _ IH]; [done|].
  simpl. unfold upd at 2. by destruct (decide (label c = k)).
Qed.

(** The four management fields of a node. *)
Lemma upds_keeps_mgmt k cs n :
  Forall (λ d, label d ≠ k ∨ Set_ (NetworkSettings d) = false) cs →
  nb_MgmtIPv4Address (upds k cs n) = nb_MgmtIPv4Address n ∧
  nb_MgmtIPv4PrefixLength (upds k cs n) = nb_MgmtIPv4PrefixLength n ∧
  nb_MgmtIPv6Address (upds k cs n) = nb_MgmtIPv6Address n ∧
  nb_MgmtIPv6PrefixLength (upds k cs n) = nb_MgmtIPv6PrefixLength n.
Proof.
  unfold upds. intros Hcs. revert n.
  induction Hcs as [|c cs Hc _ IH]; intros n; [done|].
  simpl. destruct (IH (upd k c n)) as (-> & -> & -> & ->).
  unfold upd, writeNode.
  destruct (decide (label c = k)); [|done].
  destruct (isHost n); [done|].
  destruct Hc as [? | ->]; done.
Qed.

(** X6. Enrichment never adds, removes or renames a node: the node map
    has the same keys afterwards, and every node keeps its short name and
    its network mode. *)
Theorem enrichNodes_keeps_nodes cs st net :
  dom (nodes (enrichNodes cs st net)) = dom (nodes st) ∧
  ∀ k n', nodes (enrichNodes cs st net) !! k = Some n' →
    ∃ n, nodes st !! k = Some n ∧
         nb_ShortName n' = nb_ShortName n ∧
         nb_NetworkMode n' = nb_NetworkMode n.
Proof.
  split.
  - apply set_eq. intros k. rewrite !elem_of_dom, enrichNodes_lookup.
    by rewrite fmap_is_Some.
  - intros k n'. rewrite enrichNodes_lookup.
    destruct (nodes st !! k) as [n|]; [|done].
    intros [= <-]. exists n. split; [done|]. apply upds_names.
Qed.

Lemma enrichNodes_keeps_nodes_witness :
  let st := {| name := ""; nodes := {[ "r1" := Sample.nodeBase "r1" "" ]} |} in
  ∃ n, nodes st !! "r1" = Some n ∧
       nb_ShortName (Sample.nodeBase "r1" "id1") = nb_ShortName n.
Proof.
  intros st.
  destruct (enrichNodes_keeps_nodes
              [Sample.container "/r1" "id1" "r1" false "" ""] st "clab")
    as [_ Hkeep].
  destruct (Hkeep "r1" (Sample.nodeBase "r1" "id1")) as (n & Hn & Hs & _);
    [reflexivity|].
  by exists n.
Defined.

(** X7. A node on host networking, and a node whose name is the
    [clab-node-name] label of no listed container, come out of enrichment
    exactly as they went in. *)
Theorem enrichNodes_untouched cs st net k n :
  nodes st !! k = Some n →
  isHost n = true ∨ Forall (λ c, label c ≠ k) cs →
  nodes (enrichNodes cs st net) !! k = Some n.
Proof.
  intros Hk Hwhy. rewrite enrichNodes_lookup, Hk. simpl. f_equal.
  destruct Hwhy; [by apply upds_host|by apply upds_no_match].
Qed.

Lemma enrichNodes_untouched_witness :
  let n := Sample.nodeBase "r9" "" in
  let st := {| name := ""; nodes := {[ "r9" := n ]} |} in
  nodes (enrichNodes (Sample.two_containers true true) st "clab") !! "r9"
  = Some n.
Proof.
  intros n st.
  apply (enrichNodes_untouched (Sample.two_containers true true) st "clab" "r9" n).
  - reflexivity.
  - right. repeat constructor; discriminate.
Defined.

(** X8. When several listed containers carry the name of one node (not
    on host networking), the last one gives the node its container ID, and
    the last one with populated network settings gives it its management
    addresses and prefix lengths; without any such container the four
    management fields keep their values. *)
Theorem enrichNodes_last_wins cs1 c cs2 st net n :
  nodes st !! label c = Some n →
  isHost n = false →
  ∃ n',
    nodes (enrichNodes (cs1 ++ c :: cs2) st net) !! label c = Some n' ∧
    (Forall (λ d, label d ≠ label c) cs2 → nb_ContainerID n' = ID c) ∧
    (Set_ (NetworkSettings c) = true →
     Forall (λ d, label d ≠ label c ∨ Set_ (NetworkSettings d) = false) cs2 →
     nb_MgmtIPv4Address n' = IPv4addr (NetworkSettings c) ∧
     nb_MgmtIPv4PrefixLength n' = IPv4pLen (NetworkSettings c) ∧
     nb_MgmtIPv6Address n' = IPv6addr (NetworkSettings c) ∧
     nb_MgmtIPv6PrefixLength n' = IPv6pLen (NetworkSettings c)) ∧
    (Forall (λ d, label d ≠ label c ∨ Set_ (NetworkSettings d) = false)
       (cs1 ++ c :: cs2) →
     nb_MgmtIPv4Address n' = nb_MgmtIPv4Address n ∧
     nb_MgmtIPv4PrefixLength n' = nb_MgmtIPv4PrefixLength n ∧
     nb_MgmtIPv6Address n' = nb_MgmtIPv6Address n ∧
     nb_MgmtIPv6PrefixLength n' = nb_MgmtIPv6PrefixLength n).
Proof.
  intros Hk Hh. eexists. split.
  { rewrite enrichNodes_lookup, Hk. reflexivity. }
  assert (upds (label c) (cs1 ++ c :: cs2) n
          = upds (label c) cs2 (writeNode c (upds (label c) cs1 n))) as Heq.
  { rewrite upds_app. change (c :: cs2) with ([c] ++ cs2). rewrite upds_app.
    f_equal. unfold upds at 1. simpl. unfold upd at 1.
    rewrite decide_True by done. by rewrite upds_isHost, Hh. }
  split; [|split].
  - intros Hlast. rewrite Heq, upds_no_match by done. reflexivity.
  - intros Hset Hlast. rewrite Heq.
    destruct (upds_keeps_mgmt (label c) cs2
                (writeNode c (upds (label c) cs1 n)) Hlast) as (-> & -> & -> & ->).
    unfold writeNode. by rewrite Hset.
  - intros Hnone. by apply upds_keeps_mgmt.
Qed.

Lemma enrichNodes_last_wins_witness :
  let n := Sample.nodeBase "r1" "" in
  let st := {| name := ""; nodes := {[ "r1" := n ]} |} in
  let c1 := Sample.container "/old" "id-old" "r1" true "10.0.0.1" "" in
  let c2 := Sample.container "/new" "id-new" "r1" false "10.0.0.2" "" in
  ∃ n', nodes (enrichNodes ([c1] ++ c2 :: []) st "clab") !! "r1" = Some n' ∧
        nb_ContainerID n' = "id-new".
Proof.
  intros n st c1 c2.
  destruct (enrichNodes_last_wins [c1] c2 [] st "clab" n)
    as (n' & Hl & Hid & _); [reflexivity|reflexivity|].
  exists n'. split; [exact Hl|]. apply Hid. constructor.
Defined.

Lemma upd_comm k c d n :
  label c ≠ label d → upd k c (upd k d n) = upd k d (upd k c n).
Proof.
  intros Hne. unfold upd.
  destruct (decide (label c = k)), (decide (label d = k)); congruence.
Qed.

Lemma upds_perm k cs cs' n :
  cs ≡ₚ cs' → NoDup (label <$> cs) → upds k cs n = upds k cs' n.
Proof.
  unfold upds. intros Hperm. revert n.
  induction Hperm as [|c cs cs' _ IH|c d cs|cs1 cs2 cs3 H12 IH1 H23 IH2];
    intros n Hnd.
  - done.
  - simpl. apply IH. by apply NoDup_cons in Hnd as [_ ?].
  - simpl. f_equal. apply upd_comm.
    rewrite !fmap_cons in Hnd. apply NoDup_cons in Hnd as [Hin _].
    intros Heq. apply Hin. rewrite Heq. by left.
  - rewrite IH1 by done. apply IH2. by rewrite <-H12.
Qed.

(** X9. When no two listed containers carry the same [clab-node-name]
    label, the node map that enrichment produces does not depend on the
    order in which the runtime listed the containers. *)
Theorem enrichNodes_order_free cs cs' st net :
  cs ≡ₚ cs' →
  NoDup (label <$> cs) →
  nodes (enrichNodes cs st net) = nodes (enrichNodes cs' st net).
Proof.
  intros Hperm Hnd. apply map_eq. intros k.
  rewrite !enrichNodes_lookup.
  destruct (nodes st !! k) as [n|]; [|done]. simpl.
  by rewrite (upds_perm k cs cs').
Qed.

Lemma enrichNodes_order_free_witness :
  let st := {| name := "";
               nodes := {[ "r1" := Sample.nodeBase "r1" "" ]}
                        ∪ {[ "r2" := Sample.nodeBase "r2" "" ]} |} in
  nodes (enrichNodes (Sample.two_containers true true) st "clab")
  = nodes (enrichNodes (reverse (Sample.two_containers true true)) st "clab").
Proof.
  intros st.
  apply (enrichNodes_order_free (Sample.two_containers true true)
           (reverse (Sample.two_containers true true)) st "clab").
  - symmetry. apply reverse_Permutation.
  - apply NoDup_cons. split; [|apply NoDup_singleton].
    intros Hin. apply list_elem_of_singleton in Hin. discriminate Hin.
Defined.

(** X10. Enrichment leaves the package-level variable [name] (the lab
    name flag that [setFlags] reads) equal to the [clab-node-name] label
    of the last listed container, "" if that container has no such label,
    whether or not a node matched; the node map it produces does not
    depend on what [name] was.  A later [setFlags] would therefore name
    the lab after that label, when it is not empty. *)
Theorem enrichNodes_overwrites_name cs c st net :
  name (enrichNodes (cs ++ [c]) st net) = label c ∧
  (Labels c !! node_label = None → name (enrichNodes (cs ++ [c]) st net) = "") ∧
  (∀ nm, nodes (enrichNodes (cs ++ [c]) {| name := nm; nodes := nodes st |} net)
         = nodes (enrichNodes (cs ++ [c]) st net)) ∧
  (∀ f conf,
     Flags.name f = name (enrichNodes (cs ++ [c]) st net) →
     label c ≠ "" →
     Flags.Name (Flags.setFlags f conf) = label c).
Proof.
  assert (name (enrichNodes (cs ++ [c]) st net) = label c) as Hname.
  { by rewrite enrichNodes_name, last_snoc. }
  split; [done|]. split; [|split].
  - intros Hnone. rewrite Hname. unfold label, map_index. by rewrite Hnone.
  - intros nm. apply map_eq. intros k. by rewrite !enrichNodes_lookup.
  - intros f conf Hf Hne. rewrite Hname in Hf. unfold Flags.setFlags.
    rewrite Hf. destruct (String.eqb_spec (label c) "") as [|_]; [done|].
    simpl. by repeat case_match.
Qed.

Lemma enrichNodes_overwrites_name_witness :
  let st := {| name := "my-lab"; nodes := ∅ |} in
  name (enrichNodes ([] ++ [Sample.container "/x" "idx" "r1" false "" ""]) st "clab")
  = "r1".
Proof.
  intros st.
  apply (enrichNodes_overwrites_name []
           (Sample.container "/x" "idx" "r1" false "" "") st "clab").
Defined.

End MoreEnrich.

(** ** Flags *)

Section FlagsProperties.
Import Flags.

(** X11. [setFlags] overwrites a configuration field exactly when its
    flag was given (a non-empty name or network, a subnet that does not
    print as "<nil>"), with the flag's value; with no flag given the
    configuration is unchanged, and applying the same flags twice is the
    same as applying them once. *)
Theorem setFlags_overrides f conf :
  Name (setFlags f conf) = (if String.eqb (name f) "" then Name conf else name f) ∧
  Network (Mgmt (setFlags f conf))
    = (if String.eqb (mgmtNetName f) "" then Network (Mgmt conf)
       else mgmtNetName f) ∧
  IPv4Subnet (Mgmt (setFlags f conf))
    = (if String.eqb (mgmtIPv4Subnet f) "<nil>" then IPv4Subnet (Mgmt conf)
       else mgmtIPv4Subnet f) ∧
  IPv6Subnet (Mgmt (setFlags f conf))
    = (if String.eqb (mgmtIPv6Subnet f) "<nil>" then IPv6Subnet (Mgmt conf)
       else mgmtIPv6Subnet f) ∧
  setFlags defaults conf = conf ∧
  setFlags f (setFlags f conf) = setFlags f conf.
Proof.
  destruct conf as [nm [nw v4 v6]], f as [fn fnw f4 f6].
  unfold setFlags, defaults; simpl.
  destruct (String.eqb fn ""), (String.eqb fnw ""), (String.eqb f4 "<nil>"),
    (String.eqb f6 "<nil>"); simpl; repeat split; reflexivity.
Qed.

End FlagsProperties.

(** ** The cEOS node kind, continued *)

(** Follow a run that reaches a result through the program, call after
    call, splitting on every answer the program looks at. *)
Ltac walk Hr :=
  repeat first
    [ apply runs_Ret_inv in Hr as [-> Hr]; simplify_eq
    | match type of Hr with
      | context [match r_err ?x with _ => _ end] =>
          let E := fresh "Herr" in destruct (r_err x) eqn:E
      end
    | let r := fresh "r" in first_call Hr r ].

Section MoreCeos.
Import Ceos.
Context `{GoLib}.

Lemma concat_all_app (l1 l2 : list string) :
  concat_all (l1 ++ l2) = concat_all l1 +:+ concat_all l2.
Proof.
  induction l1 as [|x l1 IH]; [done|].
  simpl. by rewrite IH, append_assoc.
Qed.

(** X12. Whatever [Init] returns, the node's environment is the merge of
    the cEOS defaults with the environment the options left, and every
    variable of that environment is on the command line: [Cmd] is
    "/sbin/init " followed somewhere by "systemd.setenv=K=V " for each
    entry K, V. *)
Theorem Init_cmd_covers_env cfg opts r :
  Init_returns cfg opts r →
  Env r = MergeStringMaps ceosEnv (Env (foldl (λ s o, o s) cfg opts)) ∧
  ∀ k v, Env r !! k = Some v →
    ∃ before after,
      Cmd r = "/sbin/init " +:+ before
                +:+ ("systemd.setenv=" +:+ k +:+ "=" +:+ v +:+ " ") +:+ after.
Proof.
  intros (visited & mac & Hvis & Hinit). unfold range_order in Hvis.
  injection Hinit as <-. split; [reflexivity|].
  intros k v Hk. cbn [Env Cmd set_Binds set_MacAddress set_Cmd set_Env] in *.
  assert ((k, v) ∈ visited) as Hin.
  { rewrite Hvis. by apply elem_of_map_to_list. }
  apply list_elem_of_split in Hin as (l1 & l2 & ->).
  exists (concat_all (setenv <$> l1)), (concat_all (setenv <$> l2)).
  rewrite buildCmd_segments, fmap_app, concat_all_app. reflexivity.
Qed.

(** What [PreDeploy] does, by what parsing the MAC address gives. *)
Lemma PreDeploy_returns_inv node configName labCADir labCARoot t out :
  returns (PreDeploy node configName labCADir labCARoot) t out →
  let dirs := [ CreateDirectory (LabDir node) 511;
                CreateDirectory (path_Join [LabDir node; "flash"]) 511 ] in
  let node' := set_ResConfig node
                 (path_Join [LabDir node; "flash"; "startup-config"]) in
  match ParseMAC (MacAddress node) with
  | inr err => calls t = dirs ∧ out = Returned (node', Some err)
  | inl m =>
      match m !! 5%nat with
      | None => calls t = dirs ∧ out = Panicked "index out of range"
      | Some m5 =>
          calls t = dirs ++
            [ CreateFile (path_Join [LabDir node; "flash"; "system_mac_address"])
                (HardwareAddr_String (<[5%nat := ((m5 + 1) mod 256)%Z]> m)) ] ∧
          out = Returned (node', None)
      end
  end.
Proof.
  intros Hr dirs node'. unfold PreDeploy, createCEOSFiles in Hr.
  first_call Hr r0. first_call Hr r1.
  cbn [MacAddress set_ResConfig] in Hr.
  destruct (ParseMAC (MacAddress node)) as [m|err].
  - destruct (m !! 5%nat) as [m5|].
    + first_call Hr r2. apply runs_Ret_inv in Hr as [-> [= ->]]. done.
    + apply runs_Ret_inv in Hr as [-> [= ->]]. done.
  - apply runs_Ret_inv in Hr as [-> [= ->]]. done.
Qed.

(** X13. When the node's MAC address does not parse, [PreDeploy] returns
    the parse error; by then it has created the lab directory and the
    flash directory and set the node's startup-config path, but it writes
    no system-MAC file. *)
Theorem PreDeploy_bad_mac node configName labCADir labCARoot err t out :
  ParseMAC (MacAddress node) = inr err →
  returns (PreDeploy node configName labCADir labCARoot) t out →
  calls t = [ CreateDirectory (LabDir node) 511;
              CreateDirectory (path_Join [LabDir node; "flash"]) 511 ] ∧
  out = Returned
          (set_ResConfig node
             (path_Join [LabDir node; "flash"; "startup-config"]), Some err).
Proof.
  intros Hmac Hr. apply PreDeploy_returns_inv in Hr. by rewrite Hmac in Hr.
Qed.

(** X14. For a parsed address of any length above five bytes (six, or the
    eight and twenty bytes [net.ParseMAC] also accepts), the system MAC
    written is the address with its sixth byte, and no other, replaced by
    that byte plus one modulo 256: for the longer addresses the byte that
    changes is not the last one.  An address of fewer than six bytes makes
    [PreDeploy] panic before any file is written. *)
Theorem PreDeploy_sixth_byte node configName labCADir labCARoot m t out :
  ParseMAC (MacAddress node) = inl m →
  returns (PreDeploy node configName labCADir labCARoot) t out →
  (∀ m5, m !! 5%nat = Some m5 →
     ∃ sysmac,
       sysmac = <[5%nat := ((m5 + 1) mod 256)%Z]> m ∧
       calls t =
         [ CreateDirectory (LabDir node) 511;
           CreateDirectory (path_Join [LabDir node; "flash"]) 511;
           CreateFile (path_Join [LabDir node; "flash"; "system_mac_address"])
             (HardwareAddr_String sysmac) ] ∧
       length sysmac = length m ∧
       sysmac !! 5%nat = Some ((m5 + 1) mod 256)%Z ∧
       (∀ i, i ≠ 5%nat → sysmac !! i = m !! i) ∧
       ∃ node', out = Returned (node', None)) ∧
  ((length m ≤ 5)%nat →
     calls t = [ CreateDirectory (LabDir node) 511;
                 CreateDirectory (path_Join [LabDir node; "flash"]) 511 ] ∧
     out = Panicked "index out of range").
Proof.
  intros Hmac Hr. apply PreDeploy_returns_inv in Hr. rewrite Hmac in Hr.
  split.
  - intros m5 Hm5. rewrite Hm5 in Hr. destruct Hr as [Hcalls ->].
    eexists. split; [reflexivity|]. split; [exact Hcalls|].
    split; [apply length_insert|]. split.
    + apply list_lookup_insert_eq. by eapply lookup_lt_Some.
    + split; [|eauto]. intros i Hi. by apply list_lookup_insert_ne.
  - intros Hlen. by rewrite (lookup_ge_None_2 m 5) in Hr by lia.
Qed.

(** X15. [PreDeploy] does not touch the node's MAC address: run again on
    the node it returned, it makes the same calls, writes the same system
    MAC and returns the same node. *)
Theorem PreDeploy_rerun node configName labCADir labCARoot t node' t2 out2 :
  returns (PreDeploy node configName labCADir labCARoot) t
    (Returned (node', None)) →
  returns (PreDeploy node' configName labCADir labCARoot) t2 out2 →
  MacAddress node' = MacAddress node ∧
  calls t2 = calls t ∧
  out2 = Returned (node', None).
Proof.
  intros Hr Hr2.
  apply PreDeploy_returns_inv in Hr. apply PreDeploy_returns_inv in Hr2.
  destruct (ParseMAC (MacAddress node)) as [m|err] eqn:Hmac;
    [|by destruct Hr as [_ [=]]].
  destruct (m !! 5%nat) as [m5|] eqn:Hm5; [|by destruct Hr as [_ [=]]].
  destruct Hr as [Hcalls [= ->]].
  cbn [MacAddress LabDir set_ResConfig] in Hr2. rewrite Hmac, Hm5 in Hr2.
  destruct Hr2 as [Hcalls2 ->]. split; [reflexivity|].
  split; [by rewrite Hcalls, Hcalls2|reflexivity].
Qed.

(** Tactics for [PostDeploy_runs_inv]: [next] looks at the next call of
    a run (the run stops before it, or goes through it), [stop_here] and
    [ended] conclude for a run of [n] calls. *)
Ltac answered :=
  let i := fresh "i" in
  let Hi := fresh "Hi" in
  let Hlt := fresh "Hlt" in
  intros i ? ? Hi Hlt ?; simpl in Hlt;
  do 8 (try (destruct i as [|i]; simpl in Hi; simplify_eq; try done; try lia)).

Ltac next Hr r :=
  let t' := fresh "t" in
  apply runs_Do_inv in Hr as [[-> ->]|(r & t' & -> & Hr)];
  cbn beta iota in *.

Ltac stop_here cfg nspath n :=
  exists nspath; split;
  [ exists (drop n (Ceos.debug_line cfg :: Ceos.protocol cfg nspath)); reflexivity
  | answered ].

Ltac ended Hr cfg nspath n :=
  apply runs_Ret_inv in Hr as [-> _]; stop_here cfg nspath n.

(** Every run of [PostDeploy], finished or not. *)
Lemma PostDeploy_runs_inv cfg t rest :
  runs (PostDeploy cfg) t rest →
  ∃ nspath,
    calls t `prefix_of` debug_line cfg :: protocol cfg nspath ∧
    ∀ i c r, t !! i = Some (c, r) → (S i < length t)%nat →
             is_log c = false → r_err r = None.
Proof.
  intros Hr. unfold PostDeploy, ceosPostDeploy in Hr.
  next Hr r0; [stop_here cfg "" 0%nat|].
  next Hr g; [stop_here cfg "" 1%nat|].
  destruct (r_err g) eqn:Hg; [ended Hr cfg "" 2%nat|].
  next Hr r1; [stop_here cfg "" 2%nat|].
  next Hr s; [stop_here cfg "" 3%nat|].
  destruct (r_err s) eqn:Hs; [ended Hr cfg "" 4%nat|].
  next Hr d; [stop_here cfg "" 4%nat|].
  destruct (r_err d) eqn:Hd; [ended Hr cfg "" 5%nat|].
  next Hr st; [stop_here cfg "" 5%nat|].
  destruct (r_err st) eqn:Hst; [ended Hr cfg "" 6%nat|].
  next Hr ns; [stop_here cfg "" 6%nat|].
  destruct (r_err ns) eqn:Hns; [ended Hr cfg "" 7%nat|].
  next Hr l; [stop_here cfg (r_val ns) 7%nat|].
  ended Hr cfg (r_val ns) 8%nat.
Qed.

Lemma calls_lookup (t : list (Call * Resp)) i c r :
  t !! i = Some (c, r) → calls t !! i = Some c.
Proof. intros Hi. unfold calls. by rewrite list_lookup_fmap, Hi. Qed.

(** X16. At any point of any run of [PostDeploy], finished or not, the
    calls made so far are the first ones of: debug line, configuration
    rendering, restart notice, stop, symlink removal, start, namespace
    path, relink.  So there are never more than eight; a step is only
    followed by another call when it answered without error; and the
    container is started only after both the stop and the symlink removal
    answered without error. *)
Theorem PostDeploy_calls_in_order cfg t rest :
  runs (PostDeploy cfg) t rest →
  ∃ nspath,
    calls t `prefix_of` debug_line cfg :: protocol cfg nspath ∧
    (length t ≤ 8)%nat ∧
    (∀ i c r, t !! i = Some (c, r) → (S i < length t)%nat →
              is_log c = false → r_err r = None) ∧
    (∀ i r, t !! i = Some (StartContainer (ContainerID cfg), r) →
       ∃ s d, t !! 3%nat = Some (StopContainer (ContainerID cfg) 1, s) ∧
              r_err s = None ∧
              t !! 4%nat = Some (DeleteNetnsSymlink (LongName cfg), d) ∧
              r_err d = None ∧ i = 5%nat).
Proof.
  intros Hr. destruct (PostDeploy_runs_inv cfg t rest Hr) as (nspath & Hpre & Hans).
  exists nspath. split; [exact Hpre|].
  assert (length t ≤ 8)%nat as Hlen.
  { apply prefix_length in Hpre. unfold calls in Hpre.
    rewrite length_fmap in Hpre. exact Hpre. }
  split; [exact Hlen|]. split; [exact Hans|].
  intros i r Hi.
  assert (∀ j c, calls t !! j = Some c →
            (debug_line cfg :: protocol cfg nspath) !! j = Some c) as Hfull.
  { intros j c Hj. eapply prefix_lookup_Some; eauto. }
  assert (i = 5%nat) as ->.
  { pose proof (Hfull i _ (calls_lookup t i _ r Hi)) as Hat.
    do 8 (try (destruct i as [|i]; [by simplify_eq/=|])). done. }
  assert (5 < length t)%nat as H5 by (by eapply lookup_lt_Some).
  destruct (lookup_lt_is_Some_2 t 3) as [[c3 s] H3]; [lia|].
  destruct (lookup_lt_is_Some_2 t 4) as [[c4 d] H4]; [lia|].
  pose proof (Hfull 3%nat c3 (calls_lookup t 3 c3 s H3)) as Hc3.
  pose proof (Hfull 4%nat c4 (calls_lookup t 4 c4 d H4)) as Hc4.
  simpl in Hc3, Hc4. simplify_eq.
  exists s, d. repeat split; try done.
  - by eapply (Hans 3%nat); [exact H3|lia|].
  - by eapply (Hans 4%nat); [exact H4|lia|].
Qed.

(** Conclude that a pair with a given call is not in an explicit trace. *)
Ltac absent Hin :=
  repeat (apply elem_of_cons in Hin as [Hin|Hin]; [by simplify_eq|]);
  by apply elem_of_nil in Hin.

(** X17. [PostDeploy] changes nothing in the node but its namespace
    path, and changes that exactly when it got as far as asking the
    runtime for the path: the node then holds what the runtime answered,
    also when the runtime answered with an error (which [PostDeploy]
    returns). *)
Theorem PostDeploy_node_frame cfg t cfg' e :
  returns (PostDeploy cfg) t (cfg', e) →
  ((∃ r, (GetNSPath (ContainerID cfg), r) ∈ t ∧
         cfg' = set_NSPath cfg (r_val r) ∧
         (∀ err, r_err r = Some err → e = Some err)) ∨
   (cfg' = cfg ∧ (∀ r, (GetNSPath (ContainerID cfg), r) ∉ t) ∧ e ≠ None)).
Proof.
  intros Hr. unfold PostDeploy, ceosPostDeploy in Hr. walk Hr.
  all: try (right; split; [reflexivity|]; split; [intros ? Hin; absent Hin|done]).
  all: left; eexists; split;
    [ rewrite !elem_of_cons; do 6 right; left; reflexivity
    | split; [reflexivity|intros; congruence] ].
Qed.

(** X18. When the removal of the namespace symlink fails, [PostDeploy]
    returns that error with the node unchanged; the container was
    stopped (the stop answered without error) and no call is made to
    start it again. *)
Theorem PostDeploy_leaves_stopped cfg t cfg' e d :
  returns (PostDeploy cfg) t (cfg', e) →
  (DeleteNetnsSymlink (LongName cfg), d) ∈ t →
  r_err d ≠ None →
  e = r_err d ∧ cfg' = cfg ∧
  (∃ s, (StopContainer (ContainerID cfg) 1, s) ∈ t ∧ r_err s = None) ∧
  (∀ r, (StartContainer (ContainerID cfg), r) ∉ t).
Proof.
  intros Hr Hin Hfail. unfold PostDeploy, ceosPostDeploy in Hr. walk Hr.
  all: repeat (apply elem_of_cons in Hin as [Hin|Hin]; [simplify_eq|]);
    try (by apply elem_of_nil in Hin); try congruence.
  split; [congruence|]. split; [reflexivity|]. split.
  - eexists. split; [|eassumption]. rewrite !elem_of_cons. do 3 right. by left.
  - intros r' Hin'. absent Hin'.
Qed.



End MoreCeos.

Section MoreCeosExamples.
Import Ceos Sample MoreSample.

Lemma Init_cmd_covers_env_witness :
  ∃ before after,
    Cmd (Init ceos1 [] (map_to_list (mergedEnv ceos1 [])) "00:1c:73:aa:bb:ff").1
    = "/sbin/init " +:+ before +:+ "systemd.setenv=CEOS=1 " +:+ after.
Proof.
  destruct (Init_cmd_covers_env ceos1 []
              (Init ceos1 [] (map_to_list (mergedEnv ceos1 [])) "00:1c:73:aa:bb:ff").1)
    as [_ Hcov].
  { eexists _, _. split; [|reflexivity]. unfold range_order. reflexivity. }
  apply (Hcov "CEOS" "1"). reflexivity.
Defined.

Lemma PreDeploy_bad_mac_witness :
  calls (interp all_fine (PreDeploy ceos_badmac "" "" "") []).2
  = [ CreateDirectory "/lab/ceos1" 511; CreateDirectory "/lab/ceos1/flash" 511 ].
Proof.
  destruct (PreDeploy_bad_mac ceos_badmac "" "" ""
              "address not-a-mac: invalid MAC address"
              (interp all_fine (PreDeploy ceos_badmac "" "" "") []).2
              (interp all_fine (PreDeploy ceos_badmac "" "" "") []).1) as [Hc _].
  - reflexivity.
  - cbn. play.
  - exact Hc.
Defined.

Lemma PreDeploy_sixth_byte_witness :
  calls (interp all_fine (PreDeploy ceos_eui64 "" "" "") []).2
  = [ CreateDirectory "/lab/ceos1" 511; CreateDirectory "/lab/ceos1/flash" 511;
      CreateFile "/lab/ceos1/flash/system_mac_address"
        "00:1c:73:aa:bb:00:01:02" ].
Proof.
  destruct (PreDeploy_sixth_byte ceos_eui64 "" "" ""
              [0; 28; 115; 170; 187; 255; 1; 2]%Z
              (interp all_fine (PreDeploy ceos_eui64 "" "" "") []).2
              (interp all_fine (PreDeploy ceos_eui64 "" "" "") []).1) as [Hsix _].
  - reflexivity.
  - cbn. play.
  - destruct (Hsix 255%Z eq_refl) as (sysmac & -> & Hc & _). exact Hc.
Defined.

Lemma PreDeploy_rerun_witness :
  let first := interp all_fine (PreDeploy ceos1 "" "" "") [] in
  let node' := set_ResConfig ceos1 "/lab/ceos1/flash/startup-config" in
  let second := interp all_fine (PreDeploy node' "" "" "") [] in
  calls second.2 = calls first.2 ∧ second.1 = Returned (node', None).
Proof.
  intros first node' second.
  destruct (PreDeploy_rerun ceos1 "" "" "" first.2 node' second.2 second.1)
    as (_ & Hc & Ho).
  - cbn. play.
  - cbn. play.
  - by split.
Defined.

Lemma PostDeploy_calls_in_order_witness :
  ∃ nspath,
    calls (interp (stop_fails "c0ffee") (PostDeploy ceos1) []).2
      `prefix_of` debug_line ceos1 :: protocol ceos1 nspath.
Proof.
  destruct (PostDeploy_calls_in_order ceos1
              (interp (stop_fails "c0ffee") (PostDeploy ceos1) []).2
              (Ret (interp (stop_fails "c0ffee") (PostDeploy ceos1) []).1))
    as (nspath & Hpre & _).
  { cbn. play. }
  by exists nspath.
Defined.

Lemma PostDeploy_node_frame_witness :
  let run := interp (fails_when is_getns) (PostDeploy ceos1) [] in
  run.1.2 = Some "boom" ∧
  ((∃ r, (GetNSPath (ContainerID ceos1), r) ∈ run.2 ∧
         run.1.1 = set_NSPath ceos1 (r_val r) ∧
         (∀ err, r_err r = Some err → run.1.2 = Some err)) ∨
   (run.1.1 = ceos1 ∧ (∀ r, (GetNSPath (ContainerID ceos1), r) ∉ run.2) ∧
    run.1.2 ≠ None)).
Proof.
  intros run. split; [reflexivity|].
  apply (PostDeploy_node_frame ceos1 run.2 run.1.1 run.1.2).
  cbn. play.
Defined.

Lemma PostDeploy_leaves_stopped_witness :
  let run := interp (fails_when is_delete) (PostDeploy ceos1) [] in
  run.1.2 = Some "boom" ∧
  ∀ r, (StartContainer (ContainerID ceos1), r) ∉ run.2.
Proof.
  intros run.
  destruct (PostDeploy_leaves_stopped ceos1 run.2 run.1.1 run.1.2 (failed "boom"))
    as (He & _ & _ & Hnostart).
  - cbn. play.
  - cbn. rewrite !elem_of_cons. do 4 right. left. reflexivity.
  - discriminate.
  - split; [exact He|exact Hnostart].
Defined.


End MoreCeosExamples.

(** ** The fan-out and the end of [RunE], continued *)

Section MoreFanout.
Import Fanout HostsFile.
Variable ExecPostDeployTasks : NodeBase → N → prog (NodeBase * error).
Variable answer : Call → Resp.

Local Abbreviation goroutine := (goroutine ExecPostDeployTasks).
Local Abbreviation spawn := (spawn ExecPostDeployTasks).





End MoreFanout.

Section MoreRunE.
Import Fanout HostsFile Sample MoreSample.


(** X21. Every run of the end of [RunE] starts the second pass of link
    creation, announces the hosts file, runs [createHostsFile], logs its
    error if it returned one (and only then), and in every case goes on
    to the version notice and the summary table before returning nil. *)
Theorem afterWait_runs cs net lw t e :
  returns (afterWait cs net lw) t e →
  e = None ∧
  ∃ r1 r2 th eh tl r3 r4,
    returns (createHostsFile cs net) th eh ∧
    t = (CreateLinks lw true, r1)
          :: (Log LInfo "Writing /etc/hosts file", r2)
          :: th ++ tl
             ++ [(NewVerNotification, r3); (PrintContainerInspect cs net, r4)] ∧
    match eh with
    | Some err =>
        ∃ r, tl = [(Log LError ("failed to create hosts file: " +:+ err), r)]
    | None => tl = []
    end.
Proof.
  intros Hr. unfold afterWait in Hr.
  first_call Hr r1. first_call Hr r2.
  apply returns_bind_inv in Hr as (th & eh & t2 & Hh & Hr & ->).
  destruct eh as [err|].
  - first_call Hr r. first_call Hr r3. first_call Hr r4.
    apply runs_Ret_inv in Hr as [-> [= ->]]. split; [done|].
    exists r1, r2, th, (Some err), [(Log LError ("failed to create hosts file: " +:+ err), r)],
      r3, r4.
    split; [done|]. split; [done|]. by exists r.
  - apply (returns_bind_inv (mret ok)) in Hr as (t0 & a0 & t3 & H0 & Hr & ->).
    apply runs_Ret_inv in H0 as [-> _].
    first_call Hr r3. first_call Hr r4.
    apply runs_Ret_inv in Hr as [-> [= ->]]. split; [done|].
    by exists r1, r2, th, None, [], r3, r4.
Qed.

Lemma afterWait_runs_witness :
  (interp all_fine (afterWait (two_containers false false) "" 2) []).1 = None ∧
  calls (interp all_fine (afterWait (two_containers false false) "" 2) []).2
  = [ CreateLinks 2 true; Log LInfo "Writing /etc/hosts file";
      Log LError "failed to create hosts file: missing bridge name";
      NewVerNotification;
      PrintContainerInspect (two_containers false false) "" ].
Proof.
  destruct (afterWait_runs (two_containers false false) "" 2
              (interp all_fine (afterWait (two_containers false false) "" 2) []).2
              (interp all_fine (afterWait (two_containers false false) "" 2) []).1)
    as [He _].
  { cbn. play. }
  split; [exact He|reflexivity].
Defined.

(** X22. A worker limit is zero exactly when there is nothing to create
    (so with no link the link limit is 0 whatever [--max-workers] is); it
    never exceeds a non-zero [--max-workers]; the node limit does not
    depend on the number of links nor the link limit on the number of
    nodes; and a limit given back as the maximum is returned unchanged. *)
Theorem workerLimits_edges (M numNodes numLinks : N) :
  let Ln := (Workers.workerLimits M numNodes numLinks).1 in
  let Ll := (Workers.workerLimits M numNodes numLinks).2 in
  ((Ln = 0 ↔ numNodes = 0) ∧ (Ll = 0 ↔ numLinks = 0))%N ∧
  (M ≠ 0 → Ln ≤ M ∧ Ll ≤ M)%N ∧
  (∀ n l, (Workers.workerLimits M numNodes l).1 = Ln ∧
          (Workers.workerLimits M n numLinks).2 = Ll) ∧
  (Workers.workerLimits Ln numNodes numLinks).1 = Ln ∧
  (Workers.workerLimits Ll numNodes numLinks).2 = Ll.
Proof.
  unfold Workers.workerLimits.
  destruct (N.eqb_spec M 0) as [->|HM]; cbn [fst snd].
  - rewrite !N.ltb_irrefl.
    destruct (N.eqb_spec numNodes 0), (N.eqb_spec numLinks 0); cbn [fst snd];
      rewrite ?N.ltb_irrefl; repeat split; intros; try done; try lia.
  - destruct (N.ltb_spec numNodes M), (N.ltb_spec numLinks M); cbn [fst snd].
    all: repeat match goal with
         | |- context [(?x =? 0)%N] => destruct (N.eqb_spec x 0)
         | |- context [(?x <? ?y)%N] => destruct (N.ltb_spec x y)
         end; cbn [fst snd]; repeat split; intros; try done; try lia.
Qed.

Lemma workerLimits_edges_witness :
  ((Workers.workerLimits 4 3 0).1 ≤ 4 ∧ (Workers.workerLimits 4 3 0).2 ≤ 4)%N.
Proof.
  destruct (workerLimits_edges 4 3 0) as (_ & Hle & _).
  apply Hle. discriminate.
Defined.

End MoreRunE.
